(** * Build identity accessors of package [version] (version/prop.go)

    A shallow embedding of the accessors of [prop.go] and of the pieces of
    the Go standard library they call ([strings], [strconv],
    [path/filepath], [sync.Once], [os.Executable]).

    Go strings are byte sequences; they are modelled by [string], whose
    characters ([ascii]) are exactly the 256 byte values.  Go's [int] is
    modelled by [Z] with the wrap-around written out. *)

From Stdlib Require Import ZArith String Ascii Bool List Lia.
Import ListNotations.

Local Open Scope string_scope.
Local Open Scope Z_scope.

(** ** Bytes and slices *)

Definition byte (c : ascii) : Z := Z.of_N (N_of_ascii c).

(** Arithmetic on Go's [byte] wraps modulo 256. *)
Definition byte_wrap (z : Z) : Z := z mod 256.

Definition len (s : string) : Z := Z.of_nat (String.length s).

(** [s[i]]; the callers below index inside the string only. *)
Definition at_ (s : string) (i : Z) : ascii :=
  match String.get (Z.to_nat i) s with
  | Some c => c
  | None => Ascii.zero
  end.

(** [s[lo:hi]], [s[lo:]] and [s[:hi]]. *)
Definition slice (s : string) (lo hi : Z) : string :=
  String.substring (Z.to_nat lo) (Z.to_nat (hi - lo)) s.
Definition slice_from (s : string) (lo : Z) : string := slice s lo (len s).
Definition slice_to (s : string) (hi : Z) : string := slice s 0 hi.

(** ** Package [strings] *)

Module strings.

(** [len(s) >= len(prefix) && s[:len(prefix)] == prefix] *)
Definition HasPrefix (s prefix : string) : bool :=
  (len prefix <=? len s) && String.eqb (slice_to s (len prefix)) prefix.

(** [len(s) >= len(suffix) && s[len(s)-len(suffix):] == suffix] *)
Definition HasSuffix (s suffix : string) : bool :=
  (len suffix <=? len s)
  && String.eqb (slice_from s (len s - len suffix)) suffix.

(** The index of the first instance of [substr] in [s], or -1. *)
Fixpoint Index (s substr : string) : Z :=
  if HasPrefix s substr then 0
  else match s with
       | EmptyString => -1
       | String _ s' =>
           let i := Index s' substr in
           if i <? 0 then -1 else i + 1
       end.

Definition Contains (s substr : string) : bool := 0 <=? Index s substr.

(** [Cut] slices [s] around the first instance of [sep]. *)
Definition Cut (s sep : string) : string * string * bool :=
  let i := Index s sep in
  if 0 <=? i then (slice_to s i, slice_from s (i + len sep), true)
  else (s, "", false).

(** [EqualFold]: the byte-wise loop that handles ASCII, and the jump to
    the rune-wise loop as soon as either byte is [>= utf8.RuneSelf].  The
    rune-wise loop consults the tables of [unicode.SimpleFold]; it is a
    parameter, applied to the two remaining suffixes. *)
Section EqualFold.
Variable hasUnicode : string -> string -> bool.

Definition RuneSelf : Z := 128.

Fixpoint EqualFold (s t : string) : bool :=
  match s, t with
  | String sc s', String tc t' =>
      let sr := byte sc in
      let tr := byte tc in
      if RuneSelf <=? Z.lor sr tr then hasUnicode s t
      else if tr =? sr then EqualFold s' t'
      else
        let lo := Z.min sr tr in
        let hi := Z.max sr tr in
        if (byte "A" <=? lo) && (lo <=? byte "Z")
           && (hi =? lo + byte "a" - byte "A")
        then EqualFold s' t'
        else false
  | EmptyString, EmptyString => true
  | _, _ => false
  end.
End EqualFold.

End strings.

(** ** Package [strconv] *)

Module strconv.

(** [strconv.IntSize]: the size in bits of an [int]. *)
Inductive IntSize := Int32 | Int64.

Definition bits (w : IntSize) : Z :=
  match w with Int32 => 32 | Int64 => 64 end.

(** Conversion to a [w]-bit signed [int], and to [uint64]. *)
Definition wrap_int (w : IntSize) (z : Z) : Z :=
  (z + 2 ^ (bits w - 1)) mod 2 ^ bits w - 2 ^ (bits w - 1).
Definition wrap_u64 (z : Z) : Z := z mod 2 ^ 64.

Inductive error := nil | ErrSyntax | ErrRange.

Definition is_nil (e : error) : bool :=
  match e with nil => true | _ => false end.

Definition lower (c : Z) : Z := Z.lor c (byte "x" - byte "X").

Definition maxUint64 : Z := 2 ^ 64 - 1.

Section Sized.
Variable w : IntSize.

(** The loop of the fast path of [Atoi]. *)
Fixpoint atoi_loop (s : string) (n : Z) : Z * error :=
  match s with
  | EmptyString => (n, nil)
  | String c s' =>
      let ch := byte_wrap (byte c - byte "0") in
      if 9 <? ch then (0, ErrSyntax)
      else atoi_loop s' (wrap_int w (n * 10 + ch))
  end.

(** The loop of [ParseUint(s, 10, 0)]. *)
Fixpoint parseUint_loop (s : string) (n : Z) : Z * error :=
  let cutoff := maxUint64 / 10 + 1 in
  let maxVal := wrap_u64 (wrap_u64 (Z.shiftl 1 (bits w)) - 1) in
  match s with
  | EmptyString => (n, nil)
  | String c0 s' =>
      let c := byte c0 in
      let digit :=
        if (byte "0" <=? c) && (c <=? byte "9")
        then Some (byte_wrap (c - byte "0"))
        else if (byte "a" <=? lower c) && (lower c <=? byte "z")
        then Some (byte_wrap (byte_wrap (lower c - byte "a") + 10))
        else None in
      match digit with
      | None => (0, ErrSyntax)
      | Some d =>
          if 10 <=? d then (0, ErrSyntax)
          else if cutoff <=? n then (maxVal, ErrRange)
          else
            let n' := wrap_u64 (n * 10) in
            let n1 := wrap_u64 (n' + d) in
            if (n1 <? n') || (maxVal <? n1) then (maxVal, ErrRange)
            else parseUint_loop s' n1
      end
  end.

Definition ParseUint (s : string) : Z * error :=
  if String.eqb s "" then (0, ErrSyntax) else parseUint_loop s 0.

(** [ParseInt(s, 10, 0)]. *)
Definition ParseInt (s : string) : Z * error :=
  if String.eqb s "" then (0, ErrSyntax)
  else
    let c := at_ s 0 in
    let neg := Ascii.eqb c "-" in
    let s1 := if Ascii.eqb c "+" || neg then slice_from s 1 else s in
    let '(un, err) := ParseUint s1 in
    match err with
    | ErrSyntax => (0, ErrSyntax)
    | _ =>
        let cutoff := wrap_u64 (Z.shiftl 1 (bits w - 1)) in
        if negb neg && (cutoff <=? un) then (cutoff - 1, ErrRange)
        else if neg && (cutoff <? un) then (- cutoff, ErrRange)
        else (if neg then - un else un, nil)
    end.

Definition Atoi (s : string) : Z * error :=
  let sLen := len s in
  if (0 <? sLen) && (sLen <? (match w with Int32 => 10 | Int64 => 19 end))
  then
    let c := at_ s 0 in
    let signed := Ascii.eqb c "-" || Ascii.eqb c "+" in
    let s1 := if signed then slice_from s 1 else s in
    if signed && (len s1 <? 1) then (0, ErrSyntax)
    else
      match atoi_loop s1 0 with
      | (n, nil) => (if Ascii.eqb c "-" then wrap_int w (- n) else n, nil)
      | r => r
      end
  else
    let '(i64, err) := ParseInt s in (wrap_int w i64, err).
End Sized.

End strconv.

(** ** Package [path/filepath] *)

Module filepath.

Section Base.
(** [os.IsPathSeparator] and [volumeNameLen] differ between Unix and
    Windows. *)
Variable Separator : string.
Variable IsPathSeparator : ascii -> bool.
Variable volumeNameLen : string -> Z.

(** [for len(path) > 0 && os.IsPathSeparator(path[len(path)-1])] *)
Fixpoint stripTrailing (fuel : nat) (path : string) : string :=
  match fuel with
  | O => path
  | S fuel' =>
      if (0 <? len path) && IsPathSeparator (at_ path (len path - 1))
      then stripTrailing fuel' (slice_to path (len path - 1))
      else path
  end.

(** [for i >= 0 && !os.IsPathSeparator(path[i]) { i-- }] *)
Fixpoint lastElement (fuel : nat) (path : string) (i : Z) : Z :=
  match fuel with
  | O => i
  | S fuel' =>
      if (0 <=? i) && negb (IsPathSeparator (at_ path i))
      then lastElement fuel' path (i - 1)
      else i
  end.

Definition Base (path : string) : string :=
  if String.eqb path "" then "."
  else
    let path := stripTrailing (String.length path) path in
    let path := slice_from path (volumeNameLen path) in
    let i := lastElement (String.length path) path (len path - 1) in
    let path := if 0 <=? i then slice_from path (i + 1) else path in
    if String.eqb path "" then Separator else path.
End Base.

Definition unix_IsPathSeparator (c : ascii) : bool := Ascii.eqb c "/".
Definition unix_volumeNameLen (_ : string) : Z := 0.
Definition unix_Base : string -> string :=
  Base "/" unix_IsPathSeparator unix_volumeNameLen.

Definition windows_IsPathSeparator (c : ascii) : bool :=
  Ascii.eqb c "\" || Ascii.eqb c "/".

(** The implementation is chosen by the target platform: the Windows one
    for [windows], the Unix one (which Plan 9 agrees with on [Base])
    otherwise.  [volumeNameLen] is the Windows function of that name. *)
Definition BaseOn (GOOS : string) (volumeNameLen : string -> Z)
  : string -> string :=
  if String.eqb GOOS "windows"
  then Base "\" windows_IsPathSeparator volumeNameLen
  else unix_Base.

End filepath.

(** ** Notions the statements are phrased with *)

(** A string [s] contains [sub] when [s = pre ++ sub ++ post]. *)
Definition occurs (sub s : string) : Prop :=
  exists pre post, s = pre ++ sub ++ post.

(** The number of bytes of [s] equal to [c]. *)
Fixpoint count (c : ascii) (s : string) : nat :=
  match s with
  | EmptyString => 0
  | String d s' => (if Ascii.eqb d c then 1 else 0) + count c s'
  end.

(** Decimal integers: an optional sign, then one or more digits, with a
    value that fits a [w]-bit [int]. *)
Definition is_digit (c : ascii) : bool :=
  (byte "0" <=? byte c) && (byte c <=? byte "9").

Fixpoint all_digits (s : string) : bool :=
  match s with
  | EmptyString => true
  | String c s' => is_digit c && all_digits s'
  end.

Fixpoint decimal (s : string) (acc : Z) : Z :=
  match s with
  | EmptyString => acc
  | String c s' => decimal s' (acc * 10 + (byte c - byte "0"))
  end.

Definition sign_split (s : string) : bool * string :=
  match s with
  | String c d =>
      if Ascii.eqb c "-" then (true, d)
      else if Ascii.eqb c "+" then (false, d)
      else (false, s)
  | EmptyString => (false, "")
  end.

Definition signed_value (w : strconv.IntSize) (neg : bool) (d : string)
  : option Z :=
  if negb (String.eqb d "") && all_digits d then
    let v := if neg then - decimal d 0 else decimal d 0 in
    if (- 2 ^ (strconv.bits w - 1) <=? v) && (v <=? 2 ^ (strconv.bits w - 1) - 1)
    then Some v else None
  else None.

Definition integer_value (w : strconv.IntSize) (s : string) : option Z :=
  let (neg, d) := sign_split s in signed_value w neg d.

(** ASCII strings and their lower-case form. *)
Fixpoint is_ascii (s : string) : bool :=
  match s with
  | EmptyString => true
  | String c s' => (byte c <? 128) && is_ascii s'
  end.

Definition lower_byte (c : ascii) : ascii :=
  if (byte "A" <=? byte c) && (byte c <=? byte "Z")
  then ascii_of_N (Z.to_N (byte c + 32))
  else c.

Fixpoint ToLower (s : string) : string :=
  match s with
  | EmptyString => EmptyString
  | String c s' => String (lower_byte c) (ToLower s')
  end.

(** The longest input of the fast path of [Atoi], the largest value of
    [ParseUint], and the two paths of [Atoi] once the sign is taken off. *)
Definition fastLimit (w : strconv.IntSize) : nat :=
  match w with strconv.Int32 => 9%nat | strconv.Int64 => 18%nat end.

Definition maxVal (w : strconv.IntSize) : Z := 2 ^ strconv.bits w - 1.

Definition fast_result (w : strconv.IntSize) (neg : bool) (d : string)
  : Z * strconv.error :=
  match strconv.atoi_loop w d 0 with
  | (n, strconv.nil) => (if neg then strconv.wrap_int w (- n) else n, strconv.nil)
  | r => r
  end.

Definition slow_result (w : strconv.IntSize) (neg : bool) (d : string)
  : Z * strconv.error :=
  let '(i64, err) :=
    (let '(un, err) := strconv.ParseUint w d in
     match err with
     | strconv.ErrSyntax => (0, strconv.ErrSyntax)
     | _ =>
         let cutoff := strconv.wrap_u64 (Z.shiftl 1 (strconv.bits w - 1)) in
         if negb neg && (cutoff <=? un) then (cutoff - 1, strconv.ErrRange)
         else if neg && (cutoff <? un) then (- cutoff, strconv.ErrRange)
         else (if neg then - un else un, strconv.nil)
     end) in
  (strconv.wrap_int w i64, err).

(** ** Package-level state and the monad that threads it *)

(** The package variables of [prop.go].  A [sync.Once] is its [done] flag.
    [executableCalls] is a ghost counter of the calls to [os.Executable]. *)
Record Globals := mkGlobals {
  macFlavorOnce : bool;
  isMacSysExt : bool;
  isMacSandboxed : bool;
  winFlavorOnce : bool;
  isWindowsGUI : bool;
  isUnstableOnce : bool;
  isUnstableBuild : bool;
  executableCalls : nat
}.

(** The zero values the variables have when the process starts. *)
Definition init : Globals :=
  mkGlobals false false false false false false false 0.

Definition M (A : Type) : Type := Globals -> A * Globals.

Definition ret {A} (a : A) : M A := fun g => (a, g).
Definition bind {A B} (m : M A) (k : A -> M B) : M B :=
  fun g => let (a, g') := m g in k a g'.
Definition gets {A} (f : Globals -> A) : M A := fun g => (f g, g).
Definition modify (f : Globals -> Globals) : M unit := fun g => (tt, f g).

Declare Scope go_scope.
Delimit Scope go_scope with go.
Notation "x <- m ;; k" := (bind m (fun x => k))
  (at level 61, m at next level, right associativity) : go_scope.
Notation "m ;; k" := (bind m (fun _ => k))
  (at level 61, right associativity) : go_scope.
Local Open Scope go_scope.

Definition set_macFlavorOnce (b : bool) (g : Globals) : Globals :=
  mkGlobals b (isMacSysExt g) (isMacSandboxed g) (winFlavorOnce g)
    (isWindowsGUI g) (isUnstableOnce g) (isUnstableBuild g)
    (executableCalls g).
Definition set_isMacSysExt (b : bool) (g : Globals) : Globals :=
  mkGlobals (macFlavorOnce g) b (isMacSandboxed g) (winFlavorOnce g)
    (isWindowsGUI g) (isUnstableOnce g) (isUnstableBuild g)
    (executableCalls g).
Definition set_isMacSandboxed (b : bool) (g : Globals) : Globals :=
  mkGlobals (macFlavorOnce g) (isMacSysExt g) b (winFlavorOnce g)
    (isWindowsGUI g) (isUnstableOnce g) (isUnstableBuild g)
    (executableCalls g).
Definition set_isWindowsGUI (b : bool) (g : Globals) : Globals :=
  mkGlobals (macFlavorOnce g) (isMacSysExt g) (isMacSandboxed g)
    (winFlavorOnce g) b (isUnstableOnce g) (isUnstableBuild g)
    (executableCalls g).
Definition set_isUnstableOnce (b : bool) (g : Globals) : Globals :=
  mkGlobals (macFlavorOnce g) (isMacSysExt g) (isMacSandboxed g)
    (winFlavorOnce g) (isWindowsGUI g) b (isUnstableBuild g)
    (executableCalls g).
Definition set_isUnstableBuild (b : bool) (g : Globals) : Globals :=
  mkGlobals (macFlavorOnce g) (isMacSysExt g) (isMacSandboxed g)
    (winFlavorOnce g) (isWindowsGUI g) (isUnstableOnce g) b
    (executableCalls g).
Definition count_executable (g : Globals) : Globals :=
  mkGlobals (macFlavorOnce g) (isMacSysExt g) (isMacSandboxed g)
    (winFlavorOnce g) (isWindowsGUI g) (isUnstableOnce g)
    (isUnstableBuild g) (S (executableCalls g)).

(** [once.Do(f)] as one caller after another sees it: [f] runs if [done]
    is unset, and [done] is set when [f] returns. *)
Definition Once_Do (done : Globals -> bool)
    (set_done : bool -> Globals -> Globals) (f : M unit) : M unit :=
  d <- gets done ;;
  if d then ret tt else (f ;; modify (set_done true)).

(** ** The accessors of [prop.go] *)

(** [Meta], the JSON-serializable version information. *)
Module Meta.
Record t := mk {
  MajorMinorPatch : string;
  IsDev : bool;
  Short : string;
  Long : string;
  UnstableBranch : bool;
  GitCommit : string;
  GitDirty : bool;
  ExtraGitCommit : string;
  DaemonLong : string;
  Cap : Z
}.
End Meta.

(** The public accessors, and what a call to one returns. *)
Inductive accessor :=
| CallIsMobile | CallOS | CallIsSandboxedMacOS | CallIsMacSysExt
| CallIsWindowsGUI | CallIsUnstableBuild | CallGetMeta.

Inductive value :=
| VBool (b : bool) | VString (s : string) | VMeta (m : Meta.t).

(** The calls that may run the macOS one-time computation, and the calls
    of the Windows detector. *)
Definition is_mac_call (a : accessor) : bool :=
  match a with
  | CallIsSandboxedMacOS | CallIsMacSysExt => true
  | _ => false
  end.

Definition is_gui_call (a : accessor) : bool :=
  match a with
  | CallIsWindowsGUI => true
  | _ => false
  end.

(** What the process is given: by the Go runtime and the operating system,
    by the build (the constants of version.go), and by package [tailcfg]. *)
Record Process := mkProcess {
  (** [runtime.GOOS] and [strconv.IntSize]. *)
  runtime_GOOS : string;
  strconv_IntSize : strconv.IntSize;
  (** The outcome of [os.Executable]: the path, or [None] when resolution
      fails, in which case every implementation of [os.Executable] returns
      the empty string along with the error. *)
  executable_path : option string;
  (** [filepath.volumeNameLen] of Windows, and the rune-wise loop of
      [strings.EqualFold]. *)
  filepath_volumeNameLen : string -> Z;
  strings_hasUnicode : string -> string -> bool;
  (** The constants stamped by the build. *)
  stamp_majorMinorPatch : string;
  stamp_Short : string;
  stamp_Long : string;
  stamp_GitCommit : string;
  stamp_ExtraGitCommit : string;
  stamp_GitDirty : bool;
  (** [tailcfg.CurrentCapabilityVersion], of type [CapabilityVersion],
      whose underlying type is [int]. *)
  tailcfg_CurrentCapabilityVersion : Z
}.

(** *** Concrete processes

    A process on platform [goos] whose executable path resolves to [exe]
    (or does not), built from a tree whose short version is [short].  The
    volume name of a path is its drive letter, if it has one, and the
    rune-wise loop of [EqualFold] finds no two runes equal. *)
Definition process (goos : string) (w : strconv.IntSize)
    (exe : option string) (short : string) : Process :=
  {| runtime_GOOS := goos;
     strconv_IntSize := w;
     executable_path := exe;
     filepath_volumeNameLen :=
       fun path =>
         if (2 <=? len path) && Ascii.eqb (at_ path 1) ":" then 2 else 0;
     strings_hasUnicode := fun _ _ => false;
     stamp_majorMinorPatch := "1.2.0";
     stamp_Short := short;
     stamp_Long := short ++ "-t0f1e2d3c4";
     stamp_GitCommit := "0f1e2d3c4";
     stamp_ExtraGitCommit := "";
     stamp_GitDirty := false;
     tailcfg_CurrentCapabilityVersion := 90 |}.

(** Where the executables of the system extension, of the App Store app
    and of the Windows GUI are installed. *)
Definition sysExtPath : string :=
  "/Library/SystemExtensions/0A1B/io.tailscale.ipn.macsys.network-extension.systemextension/Contents/MacOS/io.tailscale.ipn.macsys.network-extension".

Definition appPath : string :=
  "/Applications/Tailscale.app/Contents/MacOS/Tailscale".
Definition guiPath : string := "C:\Program Files\Tailscale\Tailscale-IPN.exe".

Section Process.

Variable proc : Process.

Local Abbreviation GOOS := (runtime_GOOS proc).
Local Abbreviation IntSize := (strconv_IntSize proc).
Local Abbreviation executable := (executable_path proc).
Local Abbreviation volumeNameLen := (filepath_volumeNameLen proc).
Local Abbreviation hasUnicode := (strings_hasUnicode proc).
Local Abbreviation majorMinorPatch := (stamp_majorMinorPatch proc).
Local Abbreviation Short := (stamp_Short proc).
Local Abbreviation Long := (stamp_Long proc).
Local Abbreviation GitCommit := (stamp_GitCommit proc).
Local Abbreviation ExtraGitCommit := (stamp_ExtraGitCommit proc).
Local Abbreviation GitDirty := (stamp_GitDirty proc).
Local Abbreviation CurrentCapabilityVersion := (tailcfg_CurrentCapabilityVersion proc).

Definition os_Executable : M (string * bool) :=
  modify count_executable ;;
  ret (match executable with
       | Some path => (path, false)
       | None => ("", true)
       end).

Definition filepath_Base : string -> string :=
  filepath.BaseOn GOOS volumeNameLen.
Definition EqualFold : string -> string -> bool :=
  strings.EqualFold hasUnicode.

Definition IsMobile : M bool :=
  ret (String.eqb GOOS "android" || String.eqb GOOS "ios").

Definition OS : M string :=
  if String.eqb GOOS "ios" then ret "iOS"
  else if String.eqb GOOS "darwin" then ret "macOS"
  else ret GOOS.

Definition initMacFlavor : M unit :=
  r <- os_Executable ;;
  let (exe, err) := r : string * bool in
  if err then ret tt
  else
    modify (set_isMacSysExt
              (String.eqb (filepath_Base exe)
                 "io.tailscale.ipn.macsys.network-extension")) ;;
    sysext <- gets isMacSysExt ;;
    modify (set_isMacSandboxed
              (sysext
               || strings.HasSuffix exe "/Contents/MacOS/Tailscale"
               || strings.HasSuffix exe "/Contents/MacOS/IPNExtension")).

Definition IsSandboxedMacOS : M bool :=
  if negb (String.eqb GOOS "darwin") then ret false
  else
    Once_Do macFlavorOnce set_macFlavorOnce initMacFlavor ;;
    gets isMacSandboxed.

Definition IsMacSysExt : M bool :=
  if negb (String.eqb GOOS "darwin") then ret false
  else
    Once_Do macFlavorOnce set_macFlavorOnce initMacFlavor ;;
    gets isMacSysExt.

(** Declared in [prop.go], called by nothing. *)
Definition initWinFlavor : M unit :=
  r <- os_Executable ;;
  let (exe, err) := r : string * bool in
  if err then ret tt
  else
    modify (set_isWindowsGUI
              (EqualFold exe "tailscale-ipn.exe"
               || EqualFold exe "tailscale-ipn")).

Definition IsWindowsGUI : M bool :=
  if negb (String.eqb GOOS "windows") then ret false
  else
    r <- os_Executable ;;
    let exe := filepath_Base (fst r) in
    ret (EqualFold exe "tailscale-ipn.exe" || EqualFold exe "tailscale-ipn").

(** Go's [%] truncates towards zero: it is [Z.rem]. *)
Definition initUnstable : M unit :=
  let '(_, rest, ok) := strings.Cut Short "." in
  if negb ok then ret tt
  else
    let '(minorStr, _, ok) := strings.Cut rest "." in
    if negb ok then ret tt
    else
      let (minor, err) := strconv.Atoi IntSize minorStr in
      if negb (strconv.is_nil err) then ret tt
      else modify (set_isUnstableBuild (Z.rem minor 2 =? 1)).

Definition IsUnstableBuild : M bool :=
  Once_Do isUnstableOnce set_isUnstableOnce initUnstable ;;
  gets isUnstableBuild.

(** [int(v)] for [v] of a type whose underlying type is [int]. *)
Definition int (v : Z) : Z := v.

(** [DaemonLong] is absent from the composite literal of [GetMeta]: it
    has the zero value of its type. *)
Definition GetMeta : M Meta.t :=
  unstable <- IsUnstableBuild ;;
  ret {| Meta.MajorMinorPatch := majorMinorPatch;
         Meta.Short := Short;
         Meta.Long := Long;
         Meta.GitCommit := GitCommit;
         Meta.GitDirty := GitDirty;
         Meta.ExtraGitCommit := ExtraGitCommit;
         Meta.IsDev := strings.Contains Short "-dev";
         Meta.UnstableBranch := unstable;
         Meta.DaemonLong := "";
         Meta.Cap := int CurrentCapabilityVersion |}.

(** *** Call sequences

    The package state after a sequence of calls made since the process
    started. *)

Definition call (a : accessor) : M value :=
  match a with
  | CallIsMobile => b <- IsMobile ;; ret (VBool b)
  | CallOS => s <- OS ;; ret (VString s)
  | CallIsSandboxedMacOS => b <- IsSandboxedMacOS ;; ret (VBool b)
  | CallIsMacSysExt => b <- IsMacSysExt ;; ret (VBool b)
  | CallIsWindowsGUI => b <- IsWindowsGUI ;; ret (VBool b)
  | CallIsUnstableBuild => b <- IsUnstableBuild ;; ret (VBool b)
  | CallGetMeta => m <- GetMeta ;; ret (VMeta m)
  end.

Fixpoint run (calls : list accessor) (g : Globals) : Globals :=
  match calls with
  | [] => g
  | a :: calls' => run calls' (snd (call a g))
  end.

Definition after (calls : list accessor) : Globals := run calls init.

(** *** What the one-time computations store *)

Definition sysExtName : string := "io.tailscale.ipn.macsys.network-extension".
Definition appExecutable : string := "/Contents/MacOS/Tailscale".
Definition extensionExecutable : string := "/Contents/MacOS/IPNExtension".

Definition macSysExtValue : bool :=
  match executable with
  | Some exe => String.eqb (filepath_Base exe) sysExtName
  | None => false
  end.

Definition macSandboxedValue : bool :=
  match executable with
  | Some exe =>
      macSysExtValue
      || strings.HasSuffix exe appExecutable
      || strings.HasSuffix exe extensionExecutable
  | None => false
  end.

(** The text between the first and the second ["."] of a string. *)
Definition minorField (short : string) : option string :=
  let '(_, rest, ok) := strings.Cut short "." in
  if ok then
    let '(minorStr, _, ok') := strings.Cut rest "." in
    if ok' then Some minorStr else None
  else None.

Definition unstableValue : bool :=
  match minorField Short with
  | Some minorStr =>
      match strconv.Atoi IntSize minorStr with
      | (minor, strconv.nil) => Z.rem minor 2 =? 1
      | _ => false
      end
  | None => false
  end.

(** The package state is consistent with the process: a flag is at its
    zero value until its [Once] is done, and holds the computed value
    from then on; the macOS [Once] is only ever done on macOS. *)
Record consistent (g : Globals) : Prop := {
  mac_pending : macFlavorOnce g = false ->
                isMacSysExt g = false /\ isMacSandboxed g = false;
  mac_done : macFlavorOnce g = true ->
             GOOS = "darwin"
             /\ isMacSysExt g = macSysExtValue
             /\ isMacSandboxed g = macSandboxedValue;
  unstable_pending : isUnstableOnce g = false -> isUnstableBuild g = false;
  unstable_done : isUnstableOnce g = true -> isUnstableBuild g = unstableValue
}.

(** A call leaves a [Once] that is done as it is, and its flags too. *)
Definition keeps (g g' : Globals) : Prop :=
  (macFlavorOnce g = true ->
   macFlavorOnce g' = true
   /\ isMacSysExt g' = isMacSysExt g
   /\ isMacSandboxed g' = isMacSandboxed g)
  /\ (isUnstableOnce g = true ->
      isUnstableOnce g' = true /\ isUnstableBuild g' = isUnstableBuild g).

(** ** Facts *)

(** *** Slices, prefixes and substring search *)

Lemma len_nonneg s : 0 <= len s.
Proof. unfold len. lia. Qed.

Lemma len_String c s : len (String c s) = len s + 1.
Proof. unfold len. cbn [String.length]. lia. Qed.

Lemma length_app s t :
  String.length (s ++ t) = (String.length s + String.length t)%nat.
Proof. induction s as [|c s IH]; cbn; [|rewrite IH]; reflexivity. Qed.

Lemma len_app s t : len (s ++ t) = len s + len t.
Proof. unfold len. rewrite length_app. lia. Qed.

Lemma substring_prefix_app p post :
  String.substring 0 (String.length p) (p ++ post) = p.
Proof. induction p as [|c p IH]; cbn; [destruct post|rewrite IH]; reflexivity. Qed.

Lemma substring_0_split n : forall s,
  (n <= String.length s)%nat ->
  s = String.substring 0 n s ++ String.substring n (String.length s - n) s.
Proof.
  induction n as [|n IH]; intros s Hn.
  - destruct s; cbn.
    + reflexivity.
    + f_equal. clear Hn. rename s into r.
      induction r as [|d r IHr]; cbn; [reflexivity|].
      rewrite <- IHr. reflexivity.
  - destruct s as [|c s]; cbn in *; [lia|].
    f_equal. apply IH. lia.
Qed.

Lemma slice_to_app p post : slice_to (p ++ post) (len p) = p.
Proof.
  unfold slice_to, slice, len. rewrite Z.sub_0_r, Nat2Z.id.
  apply substring_prefix_app.
Qed.

Lemma HasPrefix_iff s p :
  strings.HasPrefix s p = true <-> exists post, s = p ++ post.
Proof.
  unfold strings.HasPrefix. rewrite andb_true_iff, Z.leb_le, String.eqb_eq.
  split.
  - intros [Hle Heq]. unfold slice_to, slice, len in *.
    rewrite Z.sub_0_r, Nat2Z.id in Heq. cbn in Heq.
    exists (String.substring (String.length p)
              (String.length s - String.length p) s).
    rewrite <- Heq at 1. apply substring_0_split. lia.
  - intros [post ->]. split.
    + rewrite len_app. pose proof (len_nonneg post). lia.
    + apply slice_to_app.
Qed.

Lemma Index_lower s sub : -1 <= strings.Index s sub.
Proof.
  induction s as [|c s IH]; cbn [strings.Index].
  - destruct (strings.HasPrefix _ _); lia.
  - destruct (strings.HasPrefix _ _); [lia|].
    destruct (strings.Index s sub <? 0) eqn:E; lia.
Qed.

Lemma Index_found s sub : 0 <= strings.Index s sub <-> occurs sub s.
Proof.
  induction s as [|c s IH]; cbn [strings.Index].
  - destruct (strings.HasPrefix "" sub) eqn:Hp.
    + split; [intros _|lia]. apply HasPrefix_iff in Hp as [post E].
      exists "", post. exact E.
    + split; [lia|]. intros (pre & post & E). exfalso.
      destruct pre; [|discriminate].
      assert (strings.HasPrefix "" sub = true) by (apply HasPrefix_iff; eauto).
      congruence.
  - destruct (strings.HasPrefix (String c s) sub) eqn:Hp.
    + split; [intros _|lia]. apply HasPrefix_iff in Hp as [post E].
      exists "", post. exact E.
    + destruct (strings.Index s sub <? 0) eqn:E.
      * apply Z.ltb_lt in E. split; [lia|]. intros (pre & post & Es).
        exfalso. destruct pre as [|d pre].
        -- assert (strings.HasPrefix (String c s) sub = true)
             by (apply HasPrefix_iff; eauto).
           congruence.
        -- cbn in Es. injection Es as _ Es.
           assert (occurs sub s) by (exists pre, post; exact Es).
           apply IH in H. lia.
      * apply Z.ltb_ge in E. split; [intros _|lia].
        apply IH in E as (pre & post & Es).
        exists (String c pre), post. cbn. rewrite Es. reflexivity.
Qed.

Lemma Contains_iff s sub : strings.Contains s sub = true <-> occurs sub s.
Proof. unfold strings.Contains. rewrite Z.leb_le. apply Index_found. Qed.

Lemma substring_all s : String.substring 0 (String.length s) s = s.
Proof. induction s as [|c s IH]; cbn; [|rewrite IH]; reflexivity. Qed.

Lemma slice_from_1 c d : slice_from (String c d) 1 = d.
Proof.
  unfold slice_from, slice, len. cbn [String.length].
  replace (Z.to_nat (Z.of_nat (S (String.length d)) - 1)) with (String.length d) by lia.
  change (Z.to_nat 1) with 1%nat. cbn [String.substring]. apply substring_all.
Qed.

Lemma slice_from_app a b : slice_from (a ++ b) (len a) = b.
Proof.
  unfold slice_from, slice, len. rewrite length_app, Nat2Z.id.
  replace (Z.to_nat _) with (String.length b) by lia.
  induction a as [|c a IH]; cbn; [apply substring_all|exact IH].
Qed.

Lemma append_assoc (a b c : string) : (a ++ b) ++ c = a ++ b ++ c.
Proof. induction a as [|x a IH]; cbn; [|rewrite IH]; reflexivity. Qed.

Lemma HasSuffix_iff s suf :
  strings.HasSuffix s suf = true <-> exists pre, s = pre ++ suf.
Proof.
  unfold strings.HasSuffix. rewrite andb_true_iff, Z.leb_le, String.eqb_eq.
  split.
  - intros [Hle Heq]. unfold slice_from, slice, len in *.
    exists (String.substring 0 (String.length s - String.length suf) s).
    rewrite <- Heq at 2.
    replace (Z.to_nat (Z.of_nat (String.length s) - Z.of_nat (String.length suf)))
      with (String.length s - String.length suf)%nat by lia.
    replace (Z.to_nat (Z.of_nat (String.length s)
                       - (Z.of_nat (String.length s) - Z.of_nat (String.length suf))))
      with (String.length s - (String.length s - String.length suf))%nat by lia.
    apply substring_0_split. lia.
  - intros [pre ->]. rewrite len_app. pose proof (len_nonneg pre). split; [lia|].
    replace (len pre + len suf - len suf) with (len pre) by lia.
    apply slice_from_app.
Qed.

(** *** Cutting at a one-byte separator *)

Lemma count_app c s t : count c (s ++ t) = (count c s + count c t)%nat.
Proof. induction s as [|d s IH]; cbn; [|rewrite IH]; lia. Qed.

Lemma slice_to_1 d t : slice_to (String d t) 1 = String d "".
Proof. unfold slice_to, slice. cbn. destruct t; reflexivity. Qed.

Lemma HasPrefix_char d t c :
  strings.HasPrefix (String d t) (String c "") = Ascii.eqb d c.
Proof.
  unfold strings.HasPrefix. change (len (String c "")) with 1.
  rewrite slice_to_1, len_String.
  pose proof (len_nonneg t).
  destruct (1 <=? len t + 1) eqn:E; [|apply Z.leb_gt in E; lia].
  cbn. apply andb_true_r.
Qed.

Lemma Index_char_absent c s :
  count c s = 0%nat -> strings.Index s (String c "") = -1.
Proof.
  induction s as [|d s IH]; cbn [count strings.Index]; intros H.
  - reflexivity.
  - rewrite HasPrefix_char. destruct (Ascii.eqb d c); [discriminate|].
    rewrite IH by exact H. reflexivity.
Qed.

Lemma Index_char_first c pre post :
  count c pre = 0%nat ->
  strings.Index (pre ++ String c post) (String c "") = len pre.
Proof.
  induction pre as [|d pre IH]; cbn [count strings.Index append]; intros H.
  - rewrite HasPrefix_char, Ascii.eqb_refl. reflexivity.
  - rewrite HasPrefix_char. destruct (Ascii.eqb d c); [discriminate|].
    rewrite IH by exact H. rewrite len_String.
    pose proof (len_nonneg pre).
    destruct (len pre <? 0) eqn:E; [apply Z.ltb_lt in E; lia|reflexivity].
Qed.

Lemma Cut_char_absent c s :
  count c s = 0%nat -> strings.Cut s (String c "") = (s, "", false).
Proof.
  intros H. unfold strings.Cut. rewrite (Index_char_absent c s H). reflexivity.
Qed.

Lemma Cut_char_first c pre post :
  count c pre = 0%nat ->
  strings.Cut (pre ++ String c post) (String c "") = (pre, post, true).
Proof.
  intros H. unfold strings.Cut. rewrite (Index_char_first c pre post H).
  pose proof (len_nonneg pre) as Hl.
  destruct (0 <=? len pre) eqn:E; [|apply Z.leb_gt in E; lia].
  rewrite slice_to_app.
  replace (pre ++ String c post) with ((pre ++ String c "") ++ post)
    by (rewrite append_assoc; reflexivity).
  replace (len pre + len (String c "")) with (len (pre ++ String c ""))
    by (rewrite len_app; reflexivity).
  rewrite slice_from_app. reflexivity.
Qed.

Lemma split_at_first c s :
  count c s = 0%nat
  \/ exists pre post, s = pre ++ String c post /\ count c pre = 0%nat.
Proof.
  induction s as [|d s IH]; cbn [count]; [left; reflexivity|].
  destruct (Ascii.eqb d c) eqn:E.
  - right. apply Ascii.eqb_eq in E. subst d. exists "", s. split; reflexivity.
  - destruct IH as [IH|(pre & post & -> & Hp)]; [left; exact IH|].
    right. exists (String d pre), post. split; [reflexivity|].
    cbn [count]. rewrite E. exact Hp.
Qed.

Lemma minorField_few s : (count "." s < 2)%nat -> minorField s = None.
Proof.
  intros H. unfold minorField.
  destruct (split_at_first "." s) as [H0|(major & tail & -> & Hm)].
  - rewrite (Cut_char_absent _ _ H0). reflexivity.
  - rewrite (Cut_char_first _ _ _ Hm).
    rewrite count_app in H. cbn [count] in H. change (Ascii.eqb "." ".") with true in H. cbv iota in H.
    rewrite (Cut_char_absent "." tail) by lia. reflexivity.
Qed.

Lemma minorField_between major minor rest :
  count "." major = 0%nat -> count "." minor = 0%nat ->
  minorField (major ++ "." ++ minor ++ "." ++ rest) = Some minor.
Proof.
  intros Hj Hn. unfold minorField. cbn [append].
  rewrite (Cut_char_first _ _ _ Hj), (Cut_char_first _ _ _ Hn). reflexivity.
Qed.

Lemma minorField_exists s :
  (2 <= count "." s)%nat ->
  exists major minor rest,
    s = major ++ "." ++ minor ++ "." ++ rest
    /\ count "." major = 0%nat /\ count "." minor = 0%nat.
Proof.
  intros H.
  destruct (split_at_first "." s) as [H0|(major & tail & -> & Hm)]; [lia|].
  rewrite count_app in H. cbn [count] in H. change (Ascii.eqb "." ".") with true in H. cbv iota in H.
  destruct (split_at_first "." tail) as [H0|(minor & rest & -> & Hn)]; [lia|].
  exists major, minor, rest. auto.
Qed.

(** *** [strconv.Atoi] *)

Lemma byte_bounds c : 0 <= byte c < 256.
Proof.
  unfold byte. pose proof (N_ascii_bounded c). lia.
Qed.

Lemma digit_value c :
  is_digit c = true ->
  byte_wrap (byte c - byte "0") = byte c - byte "0"
  /\ 0 <= byte c - byte "0" <= 9.
Proof.
  unfold is_digit, byte_wrap. change (byte "0") with 48. change (byte "9") with 57.
  rewrite andb_true_iff, !Z.leb_le. intros [H1 H2].
  rewrite Z.mod_small by lia. lia.
Qed.

Lemma not_digit_value c :
  is_digit c = false -> 9 < byte_wrap (byte c - byte "0") < 256.
Proof.
  unfold is_digit, byte_wrap. change (byte "0") with 48. change (byte "9") with 57.
  pose proof (byte_bounds c) as Hb.
  rewrite andb_false_iff, !Z.leb_gt. intros H.
  pose proof (Z.mod_pos_bound (byte c - 48) 256 ltac:(lia)).
  destruct (Z_lt_le_dec (byte c) 48).
  - replace (byte c - 48) with ((byte c + 208) + (-1) * 256) by lia.
    rewrite Z.mod_add by lia. rewrite Z.mod_small by lia. lia.
  - rewrite Z.mod_small by lia. lia.
Qed.

Lemma wrap_int_small w z :
  - 2 ^ (strconv.bits w - 1) <= z < 2 ^ (strconv.bits w - 1) ->
  strconv.wrap_int w z = z.
Proof.
  unfold strconv.wrap_int. destruct w; cbn [strconv.bits];
    intros H; rewrite Z.mod_small; lia.
Qed.

Lemma pow10_fast w k :
  (k <= fastLimit w)%nat -> 10 ^ Z.of_nat k < 2 ^ (strconv.bits w - 1).
Proof.
  intros H.
  apply Z.le_lt_trans with (10 ^ Z.of_nat (fastLimit w)).
  - apply Z.pow_le_mono_r; lia.
  - destruct w; vm_compute; reflexivity.
Qed.

Lemma atoi_loop_spec w s : forall n k,
  0 <= n < 10 ^ Z.of_nat k ->
  (k + String.length s <= fastLimit w)%nat ->
  if all_digits s
  then strconv.atoi_loop w s n = (decimal s n, strconv.nil)
       /\ 0 <= decimal s n < 10 ^ Z.of_nat (k + String.length s)
  else strconv.atoi_loop w s n = (0, strconv.ErrSyntax).
Proof.
  induction s as [|c s IH]; intros n k Hn Hk; cbn [all_digits strconv.atoi_loop decimal String.length] in *.
  - rewrite Nat.add_0_r. auto.
  - destruct (is_digit c) eqn:Hd; cbn [andb].
    + destruct (digit_value c Hd) as [-> Hr].
      destruct (9 <? byte c - byte "0") eqn:E; [apply Z.ltb_lt in E; lia|].
      assert (Hs : 10 ^ Z.of_nat (S k) = 10 * 10 ^ Z.of_nat k)
        by (rewrite Nat2Z.inj_succ, Z.pow_succ_r; lia).
      assert (Hn' : 0 <= n * 10 + (byte c - byte "0") < 10 ^ Z.of_nat (S k)) by lia.
      pose proof (pow10_fast w (S k) ltac:(lia)).
      rewrite wrap_int_small by lia.
      specialize (IH _ (S k) Hn' ltac:(lia)).
      replace (k + S (String.length s))%nat with (S k + String.length s)%nat by lia.
      exact IH.
    + destruct (not_digit_value c Hd) as [H9 _].
      apply Z.ltb_lt in H9. rewrite H9. reflexivity.
Qed.

Lemma decimal_lower s : forall n, 0 <= n -> all_digits s = true -> n <= decimal s n.
Proof.
  induction s as [|c s IH]; intros n Hn Hd; cbn [decimal all_digits] in *; [lia|].
  apply andb_true_iff in Hd as [Hc Hs]. destruct (digit_value c Hc) as [_ Hr].
  specialize (IH (n * 10 + (byte c - byte "0")) ltac:(lia) Hs). lia.
Qed.

Lemma lower_letter_is_no_digit c :
  let l := strconv.lower (byte c) in
  byte "a" <= l <= byte "z" ->
  10 <= byte_wrap (byte_wrap (l - byte "a") + 10).
Proof.
  intros l. change (byte "a") with 97. change (byte "z") with 122.
  intros H. unfold byte_wrap.
  rewrite (Z.mod_small (l - 97)) by lia. rewrite Z.mod_small by lia. lia.
Qed.

Lemma parseUint_loop_spec w s : forall n,
  0 <= n <= maxVal w ->
  match strconv.parseUint_loop w s n with
  | (v, strconv.nil) =>
      all_digits s = true /\ v = decimal s n /\ 0 <= v <= maxVal w
  | (v, strconv.ErrSyntax) => all_digits s = false
  | (v, strconv.ErrRange) =>
      v = maxVal w /\ (all_digits s = true -> maxVal w < decimal s n)
  end.
Proof.
  assert (Hmax : strconv.wrap_u64 (strconv.wrap_u64 (Z.shiftl 1 (strconv.bits w)) - 1)
                 = maxVal w) by (destruct w; reflexivity).
  assert (Hle : maxVal w <= 2 ^ 64 - 1) by (destruct w; vm_compute; discriminate).
  induction s as [|c s IH]; intros n Hn;
    cbn [strconv.parseUint_loop all_digits decimal].
  - auto.
  - rewrite Hmax. fold (is_digit c).
    destruct (is_digit c) eqn:Hd; cbn [andb].
    + destruct (digit_value c Hd) as [-> Hr].
      destruct (10 <=? byte c - byte "0") eqn:E10; [apply Z.leb_le in E10; lia|].
      change (strconv.maxUint64 / 10 + 1) with 1844674407370955162.
      destruct (1844674407370955162 <=? n) eqn:Ecut.
      * apply Z.leb_le in Ecut. split; [reflexivity|]. intros Hs.
        pose proof (decimal_lower s (n * 10 + (byte c - byte "0")) ltac:(lia) Hs).
        lia.
      * apply Z.leb_gt in Ecut. unfold strconv.wrap_u64.
        change (2 ^ 64) with 18446744073709551616 in *.
        rewrite (Z.mod_small (n * 10)) by lia.
        set (d := byte c - byte "0") in *.
        destruct (Z_lt_le_dec (n * 10 + d) 18446744073709551616) as [Hlt|Hge].
        -- rewrite (Z.mod_small (n * 10 + d)) by lia.
           destruct (n * 10 + d <? n * 10) eqn:E1; [apply Z.ltb_lt in E1; lia|].
           cbn [orb].
           destruct (maxVal w <? n * 10 + d) eqn:E2.
           ++ apply Z.ltb_lt in E2. split; [reflexivity|]. intros Hs.
              pose proof (decimal_lower s (n * 10 + d) ltac:(lia) Hs). lia.
           ++ apply Z.ltb_ge in E2. apply IH. lia.
        -- replace ((n * 10 + d) mod 18446744073709551616)
             with (n * 10 + d - 18446744073709551616).
           2:{ apply Z.mod_unique with 1; lia. }
           destruct (n * 10 + d - 18446744073709551616 <? n * 10) eqn:E1;
             [|apply Z.ltb_ge in E1; lia].
           cbn [orb]. split; [reflexivity|]. intros Hs.
           pose proof (decimal_lower s (n * 10 + d) ltac:(lia) Hs). lia.
    + destruct ((byte "a" <=? strconv.lower (byte c))
                && (strconv.lower (byte c) <=? byte "z")) eqn:El; [|reflexivity].
      apply andb_true_iff in El as [E1 E2]. apply Z.leb_le in E1, E2.
      pose proof (lower_letter_is_no_digit c (conj E1 E2)) as H. cbv zeta in H.
      apply Z.leb_le in H. rewrite H. reflexivity.
Qed.

Ltac range_cases :=
  match goal with
  | |- context [(?a <=? ?b) && (?c <=? ?d)] =>
      let E := fresh "E" in
      destruct ((a <=? b) && (c <=? d)) eqn:E;
      [apply andb_true_iff in E; rewrite !Z.leb_le in E
      |apply andb_false_iff in E; rewrite !Z.leb_gt in E]
  end.

Lemma fast_result_spec w neg d :
  d <> "" -> (String.length d <= fastLimit w)%nat ->
  match signed_value w neg d with
  | Some v => fast_result w neg d = (v, strconv.nil)
  | None => snd (fast_result w neg d) <> strconv.nil
  end.
Proof.
  intros Hne Hlen. unfold signed_value, fast_result.
  apply String.eqb_neq in Hne. rewrite Hne. cbn [negb andb].
  pose proof (atoi_loop_spec w d 0 0%nat ltac:(cbn; lia) ltac:(lia)) as H.
  destruct (all_digits d).
  - destruct H as [-> Hr]. cbn [Nat.add] in Hr.
    pose proof (pow10_fast w (String.length d) Hlen) as Hp. cbv zeta.
    destruct neg.
    + rewrite wrap_int_small by lia. range_cases; [reflexivity|lia].
    + range_cases; [reflexivity|lia].
  - rewrite H. cbn. discriminate.
Qed.

Lemma slow_result_spec w neg d :
  match signed_value w neg d with
  | Some v => slow_result w neg d = (v, strconv.nil)
  | None => snd (slow_result w neg d) <> strconv.nil
  end.
Proof.
  unfold signed_value, slow_result, strconv.ParseUint.
  destruct (String.eqb d "") eqn:Hd; cbn [negb andb]; [cbn; discriminate|].
  pose proof (parseUint_loop_spec w d 0) as H.
  assert (Hc : strconv.wrap_u64 (Z.shiftl 1 (strconv.bits w - 1))
               = 2 ^ (strconv.bits w - 1)) by (destruct w; reflexivity).
  assert (Hm : maxVal w = 2 * 2 ^ (strconv.bits w - 1) - 1)
    by (destruct w; reflexivity).
  assert (Hp : 1 < 2 ^ (strconv.bits w - 1)) by (destruct w; reflexivity).
  rewrite Hc.
  destruct (strconv.parseUint_loop w d 0) as [un err].
  specialize (H ltac:(lia)).
  set (c := 2 ^ (strconv.bits w - 1)) in *. cbv zeta.
  destruct err.
  - destruct H as (-> & -> & Hr).
    destruct neg; cbn [negb andb].
    + destruct (c <? decimal d 0) eqn:E.
      * apply Z.ltb_lt in E. range_cases; [lia|cbn; discriminate].
      * apply Z.ltb_ge in E. range_cases; [|lia].
        rewrite wrap_int_small by (fold c; lia). reflexivity.
    + destruct (c <=? decimal d 0) eqn:E.
      * apply Z.leb_le in E. range_cases; [lia|cbn; discriminate].
      * apply Z.leb_gt in E. range_cases; [|lia].
        rewrite wrap_int_small by (fold c; lia). reflexivity.
  - rewrite H. cbn. discriminate.
  - destruct H as [-> Hbig].
    assert (E1 : (c <=? maxVal w) = true) by (apply Z.leb_le; lia).
    assert (E2 : (c <? maxVal w) = true) by (apply Z.ltb_lt; lia).
    rewrite E1, E2.
    destruct (all_digits d); [|destruct neg; cbn; discriminate].
    specialize (Hbig eq_refl).
    destruct neg; cbn [negb andb];
      (range_cases; [lia|cbn; discriminate]).
Qed.

Lemma fast_path_length w s :
  (0 <? len s) && (len s <? match w with strconv.Int32 => 10 | strconv.Int64 => 19 end)
  = true ->
  (String.length s <= fastLimit w)%nat.
Proof.
  rewrite andb_true_iff, !Z.ltb_lt. unfold len. destruct w; cbn [fastLimit]; lia.
Qed.

Lemma Atoi_spec w s :
  match integer_value w s with
  | Some v => strconv.Atoi w s = (v, strconv.nil)
  | None => snd (strconv.Atoi w s) <> strconv.nil
  end.
Proof.
  destruct s as [|c d].
  - destruct w; cbn; discriminate.
  - unfold integer_value, sign_split, strconv.Atoi, strconv.ParseInt.
    rewrite slice_from_1. change (at_ (String c d) 0) with c.
    change (String.eqb (String c d) "") with false. cbv iota.
    destruct ((0 <? len (String c d)) && _) eqn:Efast.
    + apply fast_path_length in Efast. cbn [String.length] in Efast.
      destruct (Ascii.eqb c "-") eqn:Em; [|destruct (Ascii.eqb c "+") eqn:Ep];
        cbn [orb andb].
      * destruct d as [|c' d']; [cbn; discriminate|].
        replace (len (String c' d') <? 1) with false
          by (symmetry; apply Z.ltb_ge; rewrite len_String; pose proof (len_nonneg d'); lia).
        apply (fast_result_spec w true); [discriminate|cbn [String.length] in *; lia].
      * destruct d as [|c' d']; [cbn; discriminate|].
        replace (len (String c' d') <? 1) with false
          by (symmetry; apply Z.ltb_ge; rewrite len_String; pose proof (len_nonneg d'); lia).
        apply (fast_result_spec w false); [discriminate|cbn [String.length] in *; lia].
      * apply (fast_result_spec w false); [discriminate|cbn [String.length] in *; lia].
    + destruct (Ascii.eqb c "-") eqn:Em;
        [rewrite orb_true_r
        |rewrite orb_false_r; destruct (Ascii.eqb c "+") eqn:Ep].
      * apply (slow_result_spec w true d).
      * apply (slow_result_spec w false d).
      * apply (slow_result_spec w false (String c d)).
Qed.

(** *** [strings.EqualFold] on ASCII *)

Lemma byte_inj a b : byte a = byte b -> a = b.
Proof.
  unfold byte. intros H. apply N2Z.inj in H.
  rewrite <- (ascii_N_embedding a), <- (ascii_N_embedding b), H. reflexivity.
Qed.

Lemma byte_eqb a b : Ascii.eqb a b = (byte a =? byte b).
Proof.
  destruct (Ascii.eqb a b) eqn:E.
  - apply Ascii.eqb_eq in E. subst. symmetry. apply Z.eqb_refl.
  - symmetry. apply Z.eqb_neq. intros H. apply byte_inj in H.
    apply Ascii.eqb_neq in E. contradiction.
Qed.

Lemma byte_lower_byte c :
  byte (lower_byte c)
  = if (byte "A" <=? byte c) && (byte c <=? byte "Z") then byte c + 32 else byte c.
Proof.
  unfold lower_byte. destruct (_ && _) eqn:E; [|reflexivity].
  apply andb_true_iff in E as [E1 E2]. apply Z.leb_le in E1, E2.
  change (byte "A") with 65 in *. change (byte "Z") with 90 in *.
  unfold byte at 1. rewrite N_ascii_embedding by lia. lia.
Qed.

Lemma lor_below_128 a b : 0 <= a < 128 -> 0 <= b < 128 -> Z.lor a b < 128.
Proof.
  intros Ha Hb.
  destruct (Z.eq_dec (Z.lor a b) 0) as [->|Hz]; [lia|].
  assert (Hnn : 0 <= Z.lor a b) by (apply Z.lor_nonneg; lia).
  change 128 with (2 ^ 7). apply Z.log2_lt_pow2; [lia|].
  rewrite Z.log2_lor by lia.
  destruct (Z.eq_dec a 0) as [->|]; destruct (Z.eq_dec b 0) as [->|];
    cbn [Z.log2]; try lia.
  - apply Z.max_lub_lt; [lia|]. apply Z.log2_lt_pow2; lia.
  - apply Z.max_lub_lt; [|lia]. apply Z.log2_lt_pow2; lia.
  - apply Z.max_lub_lt; apply Z.log2_lt_pow2; lia.
Qed.

Lemma is_ascii_cons c s :
  is_ascii (String c s) = true -> byte c < 128 /\ is_ascii s = true.
Proof.
  cbn [is_ascii]. rewrite andb_true_iff, Z.ltb_lt. tauto.
Qed.

Lemma EqualFold_ascii h s : forall t,
  is_ascii s = true -> is_ascii t = true ->
  strings.EqualFold h s t = String.eqb (ToLower s) (ToLower t).
Proof.
  induction s as [|sc s IH]; intros [|tc t] Hs Ht;
    cbn [strings.EqualFold ToLower String.eqb]; try reflexivity.
  apply is_ascii_cons in Hs as [Hsc Hs], Ht as [Htc Ht].
  pose proof (byte_bounds sc). pose proof (byte_bounds tc).
  pose proof (lor_below_128 (byte sc) (byte tc) ltac:(lia) ltac:(lia)) as Hl.
  unfold strings.RuneSelf.
  destruct (128 <=? Z.lor (byte sc) (byte tc)) eqn:E; [apply Z.leb_le in E; lia|].
  rewrite byte_eqb, !byte_lower_byte, <- (IH t Hs Ht).
  change (byte "A") with 65. change (byte "Z") with 90. change (byte "a") with 97.
  destruct (byte tc =? byte sc) eqn:Eeq.
  - apply Z.eqb_eq in Eeq. rewrite Eeq, Z.eqb_refl. reflexivity.
  - apply Z.eqb_neq in Eeq.
    destruct (Z.min_spec (byte sc) (byte tc)) as [[Hlt ->]|[Hge ->]];
      [rewrite Z.max_r by lia|rewrite Z.max_l by lia].
    + destruct ((65 <=? byte sc) && (byte sc <=? 90)) eqn:Eu.
      * apply andb_true_iff in Eu as [E1 E2]. apply Z.leb_le in E1, E2.
        cbn [andb].
        replace ((65 <=? byte tc) && (byte tc <=? 90)) with
          (andb (65 <=? byte tc) (byte tc <=? 90)) by reflexivity.
        destruct ((65 <=? byte tc) && (byte tc <=? 90)) eqn:Et.
        -- apply andb_true_iff in Et as [E3 E4]. apply Z.leb_le in E3, E4.
           replace (byte tc =? byte sc + 97 - 65) with false
             by (symmetry; apply Z.eqb_neq; lia).
           replace (byte sc + 32 =? byte tc + 32) with false
             by (symmetry; apply Z.eqb_neq; lia).
           reflexivity.
        -- replace (byte sc + 32 =? byte tc) with (byte tc =? byte sc + 97 - 65)
             by (rewrite Z.eqb_sym; f_equal; lia).
           destruct (byte tc =? byte sc + 97 - 65); reflexivity.
      * cbn [andb].
        assert (En : (byte sc =? byte tc) = false) by (apply Z.eqb_neq; lia).
        destruct ((65 <=? byte tc) && (byte tc <=? 90)) eqn:Et.
        -- replace (byte sc =? byte tc + 32) with false
             by (symmetry; apply Z.eqb_neq; lia). reflexivity.
        -- rewrite En. reflexivity.
    + destruct ((65 <=? byte tc) && (byte tc <=? 90)) eqn:Eu.
      * apply andb_true_iff in Eu as [E1 E2]. apply Z.leb_le in E1, E2.
        cbn [andb].
        destruct ((65 <=? byte sc) && (byte sc <=? 90)) eqn:Et.
        -- apply andb_true_iff in Et as [E3 E4]. apply Z.leb_le in E3, E4.
           replace (byte sc =? byte tc + 97 - 65) with false
             by (symmetry; apply Z.eqb_neq; lia).
           replace (byte sc + 32 =? byte tc + 32) with false
             by (symmetry; apply Z.eqb_neq; lia).
           reflexivity.
        -- replace (byte sc =? byte tc + 32) with (byte sc =? byte tc + 97 - 65)
             by (f_equal; lia).
           destruct (byte sc =? byte tc + 97 - 65); reflexivity.
      * cbn [andb].
        assert (En : (byte sc =? byte tc) = false) by (apply Z.eqb_neq; lia).
        destruct ((65 <=? byte sc) && (byte sc <=? 90)) eqn:Et.
        -- replace (byte sc + 32 =? byte tc) with false
             by (symmetry; apply Z.eqb_neq; lia). reflexivity.
        -- rewrite En. reflexivity.
Qed.

(** *** [filepath.Base] on Unix *)

Lemma at_app_r a b j : 0 <= j -> at_ (a ++ b) (len a + j) = at_ b j.
Proof.
  intros Hj. unfold at_, len.
  replace (Z.to_nat (Z.of_nat (String.length a) + j))
    with (Z.to_nat j + String.length a)%nat by lia.
  rewrite <- String.append_correct2. reflexivity.
Qed.

Lemma at_cons c s j : 0 <= j -> at_ (String c s) (j + 1) = at_ s j.
Proof.
  intros Hj. unfold at_. replace (Z.to_nat (j + 1)) with (S (Z.to_nat j)) by lia.
  reflexivity.
Qed.

Lemma no_separator name : forall j,
  count "/" name = 0%nat -> 0 <= j < len name ->
  filepath.unix_IsPathSeparator (at_ name j) = false.
Proof.
  induction name as [|c name IH]; intros j Hc Hj.
  - unfold len in Hj. cbn in Hj. lia.
  - cbn [count] in Hc. unfold filepath.unix_IsPathSeparator in *.
    destruct (Ascii.eqb c "/") eqn:E; [discriminate|].
    destruct (Z.eq_dec j 0) as [->|Hnz]; [exact E|].
    rewrite len_String in Hj.
    replace j with ((j - 1) + 1) by lia. rewrite at_cons by lia.
    apply IH; [exact Hc|lia].
Qed.

Lemma slice_from_0 s : slice_from s 0 = s.
Proof.
  unfold slice_from, slice, len. rewrite Z.sub_0_r, Nat2Z.id. apply substring_all.
Qed.

Lemma lastElement_scan dir name :
  count "/" name = 0%nat ->
  forall k fuel, (k <= fuel)%nat -> (k <= String.length name)%nat ->
  filepath.lastElement filepath.unix_IsPathSeparator fuel
    (dir ++ String "/" name) (len dir + Z.of_nat k) = len dir.
Proof.
  intros Hc. pose proof (len_nonneg dir) as Hd.
  induction k as [|k IH]; intros fuel Hf Hk.
  - rewrite Z.add_0_r. destruct fuel; cbn [filepath.lastElement]; [reflexivity|].
    replace (len dir) with (len dir + 0) at 2 by lia.
    rewrite at_app_r by lia. cbn. rewrite andb_false_r. reflexivity.
  - destruct fuel as [|fuel]; [lia|]. cbn [filepath.lastElement].
    rewrite at_app_r by lia.
    replace (Z.of_nat (S k)) with (Z.of_nat k + 1) by lia.
    rewrite at_cons by lia.
    rewrite no_separator by (unfold len; lia || exact Hc).
    destruct (0 <=? len dir + (Z.of_nat k + 1)) eqn:E; [|apply Z.leb_gt in E; lia].
    cbn [negb andb].
    replace (len dir + (Z.of_nat k + 1) - 1) with (len dir + Z.of_nat k) by lia.
    apply IH; lia.
Qed.

Lemma unix_Base_file dir name :
  name <> "" -> count "/" name = 0%nat ->
  filepath.unix_Base (dir ++ "/" ++ name) = name.
Proof.
  intros Hne Hc. cbn [append]. unfold filepath.unix_Base, filepath.Base.
  set (path := dir ++ String "/" name).
  assert (Hlen : len path = len dir + 1 + len name)
    by (unfold path; rewrite len_app, len_String; lia).
  pose proof (len_nonneg dir) as Hd. pose proof (len_nonneg name) as Hn.
  assert (Hpos : 0 < len name)
    by (destruct name; [contradiction|rewrite len_String; pose proof (len_nonneg name); lia]).
  replace (String.eqb path "") with false
    by (unfold path; destruct dir; reflexivity).
  assert (Hstrip : filepath.stripTrailing filepath.unix_IsPathSeparator
                     (String.length path) path = path).
  { assert (Hl : String.length path = S (String.length dir + String.length name))
      by (unfold len in Hlen; lia).
    rewrite Hl. cbn [filepath.stripTrailing].
    replace (len path - 1) with (len dir + (1 + (len name - 1))) by lia.
    unfold path. rewrite at_app_r by lia.
    rewrite Z.add_comm, at_cons by lia.
    rewrite no_separator by (exact Hc || lia).
    rewrite andb_false_r. reflexivity. }
  rewrite Hstrip. unfold filepath.unix_volumeNameLen. rewrite slice_from_0.
  replace (len path - 1) with (len dir + Z.of_nat (String.length name))
    by (unfold len in *; lia).
  unfold path.
  rewrite (lastElement_scan dir name Hc)
    by (unfold len, path in Hlen; lia).
  destruct (0 <=? len dir) eqn:E; [|apply Z.leb_gt in E; lia].
  replace (dir ++ String "/" name) with ((dir ++ "/") ++ name)
    by (rewrite append_assoc; reflexivity).
  replace (len dir + 1) with (len (dir ++ "/")) by (rewrite len_app; reflexivity).
  rewrite slice_from_app. apply String.eqb_neq in Hne. rewrite Hne. reflexivity.
Qed.

(** *** The accessors that read only the platform identifier *)

Lemma IsMobile_run g :
  IsMobile g = (String.eqb GOOS "android" || String.eqb GOOS "ios", g).
Proof. reflexivity. Qed.

Lemma OS_pure g : OS g = (fst (OS init), g).
Proof.
  unfold OS. destruct (String.eqb GOOS "ios"); [reflexivity|].
  destruct (String.eqb GOOS "darwin"); reflexivity.
Qed.

(** C10: [IsMobile] returns true exactly when the platform identifier is
    ["android"] or ["ios"]; in particular it is false for ["darwin"] and
    for ["windows"]. *)
Theorem IsMobile_iff g :
  (fst (IsMobile g) = true <-> GOOS = "android" \/ GOOS = "ios")
  /\ (GOOS = "darwin" -> fst (IsMobile g) = false)
  /\ (GOOS = "windows" -> fst (IsMobile g) = false).
Proof.
  rewrite IsMobile_run; cbn [fst].
  split; [|split].
  - rewrite orb_true_iff, !String.eqb_eq. tauto.
  - intros H; rewrite H; reflexivity.
  - intros H; rewrite H; reflexivity.
Qed.

(** C4: [OS] returns ["iOS"] for the identifier ["ios"], ["macOS"] for
    ["darwin"], and the identifier itself for every other value. *)
Theorem OS_display_name g :
  (GOOS = "ios" -> fst (OS g) = "iOS")
  /\ (GOOS = "darwin" -> fst (OS g) = "macOS")
  /\ (GOOS <> "ios" -> GOOS <> "darwin" -> fst (OS g) = GOOS).
Proof.
  unfold OS. split; [|split].
  - intros H; rewrite H; reflexivity.
  - intros H; rewrite H; reflexivity.
  - intros Hi Hd.
    apply String.eqb_neq in Hi, Hd. rewrite Hi, Hd. reflexivity.
Qed.

(** *** The one-time computations and the consistency of the state *)

Ltac run_monad :=
  unfold Once_Do, os_Executable, bind, gets, modify, ret in *; cbn in *.

Lemma consistent_init : consistent init.
Proof. constructor; cbn; auto; discriminate. Qed.

Lemma initMacFlavor_run g :
  isMacSysExt g = false -> isMacSandboxed g = false ->
  initMacFlavor g
  = (tt, set_isMacSandboxed macSandboxedValue
           (set_isMacSysExt macSysExtValue (count_executable g))).
Proof.
  destruct g; cbn; intros -> ->.
  unfold initMacFlavor, macSandboxedValue, macSysExtValue. run_monad.
  destruct executable; reflexivity.
Qed.

Lemma initUnstable_run g :
  isUnstableBuild g = false ->
  initUnstable g = (tt, set_isUnstableBuild unstableValue g).
Proof.
  destruct g; cbn; intros ->.
  unfold initUnstable, unstableValue, minorField. run_monad.
  destruct (strings.Cut Short ".") as [[b rest] ok].
  destruct ok; [|reflexivity]; cbn.
  destruct (strings.Cut rest ".") as [[minorStr r2] ok2].
  destruct ok2; [|reflexivity]; cbn.
  destruct (strconv.Atoi IntSize minorStr) as [minor err].
  destruct err; reflexivity.
Qed.

Lemma macFlavor_Do g :
  GOOS = "darwin" -> consistent g ->
  let g' := snd (Once_Do macFlavorOnce set_macFlavorOnce initMacFlavor g) in
  consistent g'
  /\ macFlavorOnce g' = true
  /\ (macFlavorOnce g = true -> g' = g)
  /\ isUnstableOnce g' = isUnstableOnce g
  /\ isUnstableBuild g' = isUnstableBuild g.
Proof.
  intros Hos Hc. unfold Once_Do, bind, gets.
  destruct (macFlavorOnce g) eqn:Hdone; cbv beta iota.
  - cbn. auto.
  - destruct Hc as [Hp _ Hup Hud].
    destruct (Hp Hdone) as [Hs Hb].
    rewrite (initMacFlavor_run g Hs Hb); cbn.
    split; [constructor; cbn; auto; discriminate|].
    split; [reflexivity|]. split; [discriminate|]. auto.
Qed.

Lemma unstable_Do g :
  consistent g ->
  let g' := snd (Once_Do isUnstableOnce set_isUnstableOnce initUnstable g) in
  consistent g'
  /\ isUnstableOnce g' = true
  /\ (isUnstableOnce g = true -> g' = g)
  /\ macFlavorOnce g' = macFlavorOnce g
  /\ isMacSysExt g' = isMacSysExt g
  /\ isMacSandboxed g' = isMacSandboxed g
  /\ executableCalls g' = executableCalls g.
Proof.
  intros Hc. unfold Once_Do, bind, gets.
  destruct (isUnstableOnce g) eqn:Hdone; cbv beta iota.
  - cbn. auto 10.
  - destruct Hc as [Hp Hd Hup _].
    rewrite (initUnstable_run g (Hup Hdone)); cbn.
    split; [constructor; cbn; auto; discriminate|].
    split; [reflexivity|]. split; [discriminate|]. auto 10.
Qed.

Lemma not_darwin_inert g :
  String.eqb GOOS "darwin" = false ->
  IsSandboxedMacOS g = (false, g) /\ IsMacSysExt g = (false, g).
Proof.
  intros H. unfold IsSandboxedMacOS, IsMacSysExt. rewrite H. split; reflexivity.
Qed.

Lemma IsMacSysExt_value g :
  consistent g ->
  fst (IsMacSysExt g) = String.eqb GOOS "darwin" && macSysExtValue
  /\ consistent (snd (IsMacSysExt g)).
Proof.
  intros Hc. destruct (String.eqb GOOS "darwin") eqn:Hos.
  - pose proof Hos as Hb. apply String.eqb_eq in Hos.
    destruct (macFlavor_Do g Hos Hc) as (Hc' & Hdone & _).
    unfold IsMacSysExt. rewrite Hb. cbn [negb andb]. unfold bind, gets.
    destruct (Once_Do _ _ _ g) as [u g']; cbn [fst snd] in *.
    split; [|exact Hc']. apply (mac_done g' Hc' Hdone).
  - destruct (not_darwin_inert g Hos) as [_ ->]. auto.
Qed.

Lemma IsSandboxedMacOS_value g :
  consistent g ->
  fst (IsSandboxedMacOS g) = String.eqb GOOS "darwin" && macSandboxedValue
  /\ consistent (snd (IsSandboxedMacOS g)).
Proof.
  intros Hc. destruct (String.eqb GOOS "darwin") eqn:Hos.
  - pose proof Hos as Hb. apply String.eqb_eq in Hos.
    destruct (macFlavor_Do g Hos Hc) as (Hc' & Hdone & _).
    unfold IsSandboxedMacOS. rewrite Hb. cbn [negb andb]. unfold bind, gets.
    destruct (Once_Do _ _ _ g) as [u g']; cbn [fst snd] in *.
    split; [|exact Hc']. apply (mac_done g' Hc' Hdone).
  - destruct (not_darwin_inert g Hos) as [-> _]. auto.
Qed.

Lemma IsUnstableBuild_value g :
  consistent g ->
  fst (IsUnstableBuild g) = unstableValue
  /\ consistent (snd (IsUnstableBuild g)).
Proof.
  intros Hc. destruct (unstable_Do g Hc) as (Hc' & Hdone & _).
  unfold IsUnstableBuild, bind, gets.
  destruct (Once_Do _ _ _ g) as [u g']; cbn [fst snd] in *.
  split; [|exact Hc']. apply (unstable_done g' Hc' Hdone).
Qed.

Lemma IsWindowsGUI_run g :
  IsWindowsGUI g
  = if String.eqb GOOS "windows"
    then (let exe := filepath_Base (match executable with
                                    | Some path => path
                                    | None => ""
                                    end) in
          EqualFold exe "tailscale-ipn.exe" || EqualFold exe "tailscale-ipn",
          count_executable g)
    else (false, g).
Proof.
  unfold IsWindowsGUI. destruct (String.eqb GOOS "windows"); [|reflexivity].
  run_monad. destruct executable; reflexivity.
Qed.

Lemma count_executable_consistent g :
  consistent g -> consistent (count_executable g).
Proof. intros [? ? ? ?]; constructor; assumption. Qed.

Lemma call_consistent a g : consistent g -> consistent (snd (call a g)).
Proof.
  intros Hc. destruct a; unfold call, bind, ret.
  - exact Hc.
  - rewrite OS_pure. exact Hc.
  - destruct (IsSandboxedMacOS_value g Hc) as [_ H].
    destruct (IsSandboxedMacOS g); exact H.
  - destruct (IsMacSysExt_value g Hc) as [_ H].
    destruct (IsMacSysExt g); exact H.
  - rewrite IsWindowsGUI_run.
    destruct (String.eqb GOOS "windows"); cbn;
      auto using count_executable_consistent.
  - destruct (IsUnstableBuild_value g Hc) as [_ H].
    destruct (IsUnstableBuild g); exact H.
  - unfold GetMeta, bind, ret.
    destruct (IsUnstableBuild_value g Hc) as [_ H].
    destruct (IsUnstableBuild g); exact H.
Qed.

Lemma run_consistent calls :
  forall g, consistent g -> consistent (run calls g).
Proof.
  induction calls as [|a calls IH]; intros g Hc; cbn; auto using call_consistent.
Qed.

Lemma after_consistent calls : consistent (after calls).
Proof. apply run_consistent, consistent_init. Qed.

Lemma filepath_Base_darwin :
  GOOS = "darwin" -> filepath_Base = filepath.unix_Base.
Proof. intros H. unfold filepath_Base, filepath.BaseOn. rewrite H. reflexivity. Qed.

(** *** The claims about the platform flavors *)

(** C2: on macOS, whenever the executable path resolves, [IsMacSysExt]
    is true exactly when the file name of the path equals the
    network-extension bundle identifier, and [IsSandboxedMacOS] is true
    exactly when [IsMacSysExt] is, or the path ends with the executable
    location of the app bundle or of the extension bundle; so the former
    implies the latter.  This holds at any point of the process's life. *)
Theorem mac_flavor_rules calls exe :
  GOOS = "darwin" -> executable = Some exe ->
  let g := after calls in
  (fst (IsMacSysExt g) = true <-> filepath.unix_Base exe = sysExtName)
  /\ (fst (IsSandboxedMacOS g) = true <->
      fst (IsMacSysExt g) = true
      \/ (exists dir, exe = dir ++ appExecutable)
      \/ (exists dir, exe = dir ++ extensionExecutable))
  /\ (fst (IsMacSysExt g) = true -> fst (IsSandboxedMacOS g) = true).
Proof.
  intros Hos Hexe g.
  destruct (IsMacSysExt_value g (after_consistent calls)) as [Hs _].
  destruct (IsSandboxedMacOS_value g (after_consistent calls)) as [Hb _].
  rewrite Hs, Hb. unfold macSandboxedValue, macSysExtValue.
  rewrite Hexe, (filepath_Base_darwin Hos).
  apply String.eqb_eq in Hos. rewrite Hos. cbn [andb].
  rewrite !orb_true_iff, String.eqb_eq, !HasSuffix_iff. tauto.
Qed.

(** X5: a path that ends with a directory separator and the bundle identifier
    is the path of the system extension, which is sandboxed. *)
Lemma mac_sysext_path calls dir :
  GOOS = "darwin" -> executable = Some (dir ++ "/" ++ sysExtName) ->
  fst (IsMacSysExt (after calls)) = true
  /\ fst (IsSandboxedMacOS (after calls)) = true.
Proof.
  intros Hos Hexe.
  destruct (IsMacSysExt_value _ (after_consistent calls)) as [Hs _].
  destruct (IsSandboxedMacOS_value _ (after_consistent calls)) as [Hb _].
  rewrite Hs, Hb. unfold macSandboxedValue, macSysExtValue.
  rewrite Hexe, (filepath_Base_darwin Hos).
  rewrite unix_Base_file by (discriminate || reflexivity).
  apply String.eqb_eq in Hos. rewrite Hos. split; reflexivity.
Qed.

(** C7: off macOS, [IsSandboxedMacOS] and [IsMacSysExt] return false
    whatever the executable path is and leave the whole package state,
    the count of path resolutions included, as it was. *)
Theorem non_mac_flavor_false g :
  GOOS <> "darwin" ->
  IsSandboxedMacOS g = (false, g) /\ IsMacSysExt g = (false, g).
Proof.
  intros H. apply not_darwin_inert. apply String.eqb_neq. exact H.
Qed.

(** C3, amended: [IsWindowsGUI] returns false off Windows; on Windows, it
    is true exactly when the file name of the resolved executable path is
    equal under case folding to one of the two GUI executable names; and
    when resolution fails, the path is empty, its file name is ["."], which
    is equal to neither, and the result is false. *)
Theorem IsWindowsGUI_rules g :
  let name := filepath_Base (fst (fst (os_Executable g))) in
  (GOOS <> "windows" -> IsWindowsGUI g = (false, g))
  /\ (GOOS = "windows" ->
      (fst (IsWindowsGUI g) = true <->
       EqualFold name "tailscale-ipn.exe" = true
       \/ EqualFold name "tailscale-ipn" = true)
      /\ forall exe, executable = Some exe ->
         name = filepath.Base "\" filepath.windows_IsPathSeparator
                  volumeNameLen exe)
  /\ (GOOS = "windows" -> executable = None ->
      fst (fst (os_Executable g)) = ""
      /\ name = "."
      /\ EqualFold name "tailscale-ipn.exe" = false
      /\ EqualFold name "tailscale-ipn" = false
      /\ fst (IsWindowsGUI g) = false).
Proof.
  cbv zeta. rewrite IsWindowsGUI_run.
  unfold filepath_Base, filepath.BaseOn, os_Executable, bind, modify, ret.
  cbn [fst]. split; [|split].
  - intros H. apply String.eqb_neq in H. rewrite H. reflexivity.
  - intros H. rewrite H. cbn [String.eqb Ascii.eqb Bool.eqb fst]. split.
    + destruct executable; cbn [fst]; apply orb_true_iff.
    + intros exe Hexe. rewrite Hexe. reflexivity.
  - intros H Hexe. rewrite H, Hexe. repeat split; reflexivity.
Qed.

(** X9: for an ASCII file name, equality under case folding is equality of the
    lower-case forms. *)
Lemma IsWindowsGUI_ascii g exe :
  GOOS = "windows" -> executable = Some exe ->
  let name := filepath.Base "\" filepath.windows_IsPathSeparator
                volumeNameLen exe in
  is_ascii name = true ->
  (fst (IsWindowsGUI g) = true <->
   ToLower name = "tailscale-ipn.exe" \/ ToLower name = "tailscale-ipn").
Proof.
  intros Hos Hexe name Hascii.
  rewrite IsWindowsGUI_run. unfold filepath_Base, filepath.BaseOn.
  rewrite Hos, Hexe. cbn [String.eqb Ascii.eqb Bool.eqb fst]. cbv zeta.
  fold name. unfold EqualFold.
  rewrite !EqualFold_ascii by (exact Hascii || reflexivity).
  rewrite orb_true_iff, !String.eqb_eq. reflexivity.
Qed.

(** *** The metadata snapshot *)

Lemma GetMeta_run g :
  GetMeta g
  = ({| Meta.MajorMinorPatch := majorMinorPatch;
        Meta.IsDev := strings.Contains Short "-dev";
        Meta.Short := Short;
        Meta.Long := Long;
        Meta.UnstableBranch := fst (IsUnstableBuild g);
        Meta.GitCommit := GitCommit;
        Meta.GitDirty := GitDirty;
        Meta.ExtraGitCommit := ExtraGitCommit;
        Meta.DaemonLong := "";
        Meta.Cap := CurrentCapabilityVersion |},
     snd (IsUnstableBuild g)).
Proof.
  unfold GetMeta, bind, ret. destruct (IsUnstableBuild g); reflexivity.
Qed.

(** C5: at any point of the process's life [GetMeta] returns a record
    (there is no error result); its provenance fields are the stamped
    constants, [UnstableBranch] is what [IsUnstableBuild] returns, before
    as well as after the call, [Cap] is the capability version converted
    to [int], and [DaemonLong] is empty. *)
Theorem GetMeta_fields calls :
  let g := after calls in
  exists m g',
    GetMeta g = (m, g')
    /\ Meta.MajorMinorPatch m = majorMinorPatch
    /\ Meta.Short m = Short
    /\ Meta.Long m = Long
    /\ Meta.GitCommit m = GitCommit
    /\ Meta.GitDirty m = GitDirty
    /\ Meta.ExtraGitCommit m = ExtraGitCommit
    /\ Meta.UnstableBranch m = fst (IsUnstableBuild g)
    /\ Meta.UnstableBranch m = fst (IsUnstableBuild g')
    /\ Meta.Cap m = int CurrentCapabilityVersion
    /\ Meta.DaemonLong m = "".
Proof.
  intros g. rewrite GetMeta_run. eexists; eexists.
  split; [reflexivity|]. cbn.
  destruct (IsUnstableBuild_value g (after_consistent calls)) as [Hv Hc].
  destruct (IsUnstableBuild_value _ Hc) as [Hv' _].
  rewrite Hv' at 1. rewrite Hv. repeat split; reflexivity.
Qed.

(** *** Determinism *)

Lemma call_value a g :
  consistent g -> fst (call a g) = fst (call a init).
Proof.
  intros Hc. pose proof consistent_init as Hi.
  destruct a; unfold call, bind, ret.
  - reflexivity.
  - rewrite (OS_pure g), (OS_pure init). reflexivity.
  - destruct (IsSandboxedMacOS_value g Hc) as [H _].
    destruct (IsSandboxedMacOS_value init Hi) as [H' _].
    destruct (IsSandboxedMacOS g), (IsSandboxedMacOS init); cbn in *; congruence.
  - destruct (IsMacSysExt_value g Hc) as [H _].
    destruct (IsMacSysExt_value init Hi) as [H' _].
    destruct (IsMacSysExt g), (IsMacSysExt init); cbn in *; congruence.
  - rewrite !IsWindowsGUI_run. destruct (String.eqb GOOS "windows"); reflexivity.
  - destruct (IsUnstableBuild_value g Hc) as [H _].
    destruct (IsUnstableBuild_value init Hi) as [H' _].
    destruct (IsUnstableBuild g), (IsUnstableBuild init); cbn in *; congruence.
  - rewrite !GetMeta_run. cbn.
    destruct (IsUnstableBuild_value g Hc) as [-> _].
    destruct (IsUnstableBuild_value init Hi) as [-> _]. reflexivity.
Qed.

Lemma keeps_refl g : keeps g g.
Proof. split; auto. Qed.

Lemma mac_call_keeps g (f : Globals -> bool) :
  consistent g ->
  keeps g (snd ((if negb (String.eqb GOOS "darwin") then ret false
                 else Once_Do macFlavorOnce set_macFlavorOnce initMacFlavor ;;
                      gets f) g)).
Proof.
  intros Hc. destruct (String.eqb GOOS "darwin") eqn:Hos; cbn [negb].
  - apply String.eqb_eq in Hos.
    destruct (macFlavor_Do g Hos Hc) as (_ & _ & Hsame & Huo & Hub).
    unfold bind, gets.
    destruct (Once_Do _ _ _ g) as [u g']; cbn [fst snd] in *.
    split.
    + intros Hd. rewrite (Hsame Hd). auto.
    + intros Hd. rewrite Huo, Hub. auto.
  - apply keeps_refl.
Qed.

Lemma unstable_call_keeps g :
  consistent g -> keeps g (snd (IsUnstableBuild g)).
Proof.
  intros Hc.
  destruct (unstable_Do g Hc) as (_ & _ & Hsame & Hmo & Hms & Hmb & _).
  unfold IsUnstableBuild, bind, gets.
  destruct (Once_Do _ _ _ g) as [u g']; cbn [fst snd] in *.
  split.
  - intros Hd. rewrite Hmo, Hms, Hmb. auto.
  - intros Hd. rewrite (Hsame Hd). auto.
Qed.

Lemma call_keeps a g : consistent g -> keeps g (snd (call a g)).
Proof.
  intros Hc. destruct a; unfold call, bind, ret.
  - apply keeps_refl.
  - rewrite OS_pure. apply keeps_refl.
  - pose proof (mac_call_keeps g isMacSandboxed Hc) as H.
    fold IsSandboxedMacOS in H. destruct (IsSandboxedMacOS g); exact H.
  - pose proof (mac_call_keeps g isMacSysExt Hc) as H.
    fold IsMacSysExt in H. destruct (IsMacSysExt g); exact H.
  - rewrite IsWindowsGUI_run.
    destruct (String.eqb GOOS "windows"); cbn; split; cbn; auto.
  - pose proof (unstable_call_keeps g Hc) as H.
    destruct (IsUnstableBuild g); exact H.
  - rewrite GetMeta_run. cbn. apply unstable_call_keeps, Hc.
Qed.

(** C8: with the platform identifier, the executable path and the
    version constants fixed, an accessor returns the same result at any
    two points of the process's life, and a call leaves every flag whose
    one-time computation is done as it is. *)
Theorem accessors_deterministic a calls calls' :
  fst (call a (after calls)) = fst (call a (after calls'))
  /\ keeps (after calls) (snd (call a (after calls))).
Proof.
  split.
  - rewrite (call_value a _ (after_consistent calls)).
    rewrite (call_value a _ (after_consistent calls')). reflexivity.
  - apply call_keeps, after_consistent.
Qed.

(** C6: [GetMeta().IsDev] is true exactly when [Short] contains ["-dev"]
    somewhere; it is true for ["1.2.0-dev"] and false for ["1.2.0"]. *)
Theorem GetMeta_IsDev g :
  (Meta.IsDev (fst (GetMeta g)) = true <-> occurs "-dev" Short)
  /\ (Short = "1.2.0-dev" -> Meta.IsDev (fst (GetMeta g)) = true)
  /\ (Short = "1.2.0" -> Meta.IsDev (fst (GetMeta g)) = false).
Proof.
  rewrite GetMeta_run. cbn [fst Meta.IsDev].
  split; [apply Contains_iff|].
  split; intros H; rewrite H; reflexivity.
Qed.

(** *** The unstable-branch detector *)

Lemma rem2_is_1 n : (Z.rem n 2 =? 1) = Z.odd n && (0 <? n).
Proof.
  destruct (Z_lt_le_dec 0 n) as [Hpos|Hneg].
  - rewrite Z.rem_mod_nonneg by lia.
    replace (0 <? n) with true by (symmetry; apply Z.ltb_lt; lia).
    rewrite andb_true_r, <- Z.bit0_mod, Z.bit0_odd.
    destruct (Z.odd n); reflexivity.
  - replace (0 <? n) with false by (symmetry; apply Z.ltb_ge; lia).
    rewrite andb_false_r. apply Z.eqb_neq.
    destruct (Z.eq_dec n 0) as [->|]; [discriminate|].
    pose proof (Z.rem_bound_pos_neg n 2 ltac:(lia) ltac:(lia)). lia.
Qed.

(** What [IsUnstableBuild] returns, at any point of the process's life:
    false when [Short] has fewer than two ["."]; otherwise, with [minor] the
    text between the first two, false when [minor] is no decimal integer
    that fits an [int], and else whether that integer is odd and
    positive. *)
Lemma IsUnstableBuild_rule calls :
  let unstable := fst (IsUnstableBuild (after calls)) in
  ((count "." Short < 2)%nat -> unstable = false)
  /\ (forall major minor rest,
        Short = major ++ "." ++ minor ++ "." ++ rest ->
        count "." major = 0%nat -> count "." minor = 0%nat ->
        unstable = match integer_value IntSize minor with
                   | Some n => Z.odd n && (0 <? n)
                   | None => false
                   end).
Proof.
  cbv zeta.
  destruct (IsUnstableBuild_value _ (after_consistent calls)) as [-> _].
  unfold unstableValue. split.
  - intros H. rewrite (minorField_few _ H). reflexivity.
  - intros major minor rest HS Hj Hn.
    rewrite HS, (minorField_between _ _ _ Hj Hn).
    pose proof (Atoi_spec IntSize minor) as Ha.
    destruct (integer_value IntSize minor) as [n|].
    + rewrite Ha. apply rem2_is_1.
    + destruct (strconv.Atoi IntSize minor) as [v []]; cbn in Ha;
        [contradiction|reflexivity|reflexivity].
Qed.

(** ** Further properties of the accessors *)

(** *** The package state a call leaves *)

Lemma mac_accessor_state g (f : Globals -> bool) :
  consistent g ->
  snd ((if negb (String.eqb GOOS "darwin") then ret false
        else Once_Do macFlavorOnce set_macFlavorOnce initMacFlavor ;;
             gets f) g)
  = if String.eqb GOOS "darwin" && negb (macFlavorOnce g)
    then set_macFlavorOnce true
           (set_isMacSandboxed macSandboxedValue
              (set_isMacSysExt macSysExtValue (count_executable g)))
    else g.
Proof.
  intros Hc. destruct (String.eqb GOOS "darwin"); cbn [negb andb]; [|reflexivity].
  unfold Once_Do, bind, gets.
  destruct (macFlavorOnce g) eqn:Hdone; cbn [negb]; [reflexivity|].
  destruct (mac_pending g Hc Hdone) as [Hs Hb].
  rewrite (initMacFlavor_run g Hs Hb). reflexivity.
Qed.

Lemma IsUnstableBuild_state g :
  consistent g ->
  snd (IsUnstableBuild g)
  = if isUnstableOnce g then g
    else set_isUnstableOnce true (set_isUnstableBuild unstableValue g).
Proof.
  intros Hc. unfold IsUnstableBuild, Once_Do, bind, gets.
  destruct (isUnstableOnce g) eqn:Hdone; [reflexivity|].
  rewrite (initUnstable_run g (unstable_pending g Hc Hdone)). reflexivity.
Qed.

Lemma call_state a g :
  consistent g ->
  snd (call a g)
  = match a with
    | CallIsMobile | CallOS => g
    | CallIsSandboxedMacOS | CallIsMacSysExt =>
        if String.eqb GOOS "darwin" && negb (macFlavorOnce g)
        then set_macFlavorOnce true
               (set_isMacSandboxed macSandboxedValue
                  (set_isMacSysExt macSysExtValue (count_executable g)))
        else g
    | CallIsWindowsGUI =>
        if String.eqb GOOS "windows" then count_executable g else g
    | CallIsUnstableBuild | CallGetMeta =>
        if isUnstableOnce g then g
        else set_isUnstableOnce true (set_isUnstableBuild unstableValue g)
    end.
Proof.
  intros Hc. destruct a; unfold call, bind, ret.
  - reflexivity.
  - rewrite OS_pure. reflexivity.
  - rewrite <- (mac_accessor_state g isMacSandboxed Hc).
    fold IsSandboxedMacOS. destruct (IsSandboxedMacOS g); reflexivity.
  - rewrite <- (mac_accessor_state g isMacSysExt Hc).
    fold IsMacSysExt. destruct (IsMacSysExt g); reflexivity.
  - rewrite IsWindowsGUI_run. destruct (String.eqb GOOS "windows"); reflexivity.
  - rewrite <- (IsUnstableBuild_state g Hc).
    destruct (IsUnstableBuild g); reflexivity.
  - rewrite GetMeta_run. cbn [snd]. apply IsUnstableBuild_state, Hc.
Qed.

(** *** How often the executable path is resolved *)

Lemma run_resolutions calls : forall g,
  consistent g ->
  executableCalls (run calls g)
  = (executableCalls g
     + if String.eqb GOOS "darwin"
       then (if negb (macFlavorOnce g) && existsb is_mac_call calls
             then 1 else 0)
       else if String.eqb GOOS "windows"
       then List.length (filter is_gui_call calls)
       else 0)%nat.
Proof.
  induction calls as [|a calls IH]; intros g Hc; cbn [run].
  - cbn. rewrite andb_false_r.
    destruct (String.eqb GOOS "darwin"), (String.eqb GOOS "windows"); lia.
  - rewrite (IH _ (call_consistent a g Hc)), (call_state a g Hc).
    cbn [existsb filter].
    destruct (String.eqb GOOS "darwin") eqn:Hd.
    + assert (Hw : String.eqb GOOS "windows" = false)
        by (apply String.eqb_eq in Hd; rewrite Hd; reflexivity).
      rewrite Hw.
      destruct a, (macFlavorOnce g) eqn:Hm, (isUnstableOnce g),
        (existsb is_mac_call calls);
        cbn; try rewrite Hm; cbn; lia.
    + destruct (String.eqb GOOS "windows") eqn:Hw;
        destruct a, (isUnstableOnce g); cbn; lia.
Qed.

(** X1: the macOS flavor is resolved at most once in the life of a process,
    at the first call of either of its two accessors; the Windows detector
    resolves the executable path anew on every call; on every other
    platform the path is never resolved. *)
Theorem executable_resolutions calls :
  executableCalls (after calls)
  = if String.eqb GOOS "darwin"
    then (if existsb is_mac_call calls then 1%nat else 0%nat)
    else if String.eqb GOOS "windows"
    then List.length (filter is_gui_call calls)
    else 0%nat.
Proof.
  unfold after. rewrite (run_resolutions calls init consistent_init).
  reflexivity.
Qed.

(** *** The macOS flavors *)

Lemma unix_Base_app dir : filepath.unix_Base (dir ++ appExecutable) = "Tailscale".
Proof.
  change appExecutable with ("/Contents/MacOS" ++ "/" ++ "Tailscale").
  rewrite <- append_assoc. apply unix_Base_file; [discriminate|reflexivity].
Qed.

Lemma unix_Base_extension dir :
  filepath.unix_Base (dir ++ extensionExecutable) = "IPNExtension".
Proof.
  change extensionExecutable with ("/Contents/MacOS" ++ "/" ++ "IPNExtension").
  rewrite <- append_assoc. apply unix_Base_file; [discriminate|reflexivity].
Qed.

(** X2: when the executable path cannot be resolved on macOS, both accessors
    return false, at the first call and at every later one. *)
Theorem mac_flavor_failed_resolution calls :
  GOOS = "darwin" -> executable = None ->
  fst (IsSandboxedMacOS (after calls)) = false
  /\ fst (IsMacSysExt (after calls)) = false.
Proof.
  intros Hos Hexe.
  destruct (IsMacSysExt_value _ (after_consistent calls)) as [-> _].
  destruct (IsSandboxedMacOS_value _ (after_consistent calls)) as [-> _].
  unfold macSandboxedValue, macSysExtValue. rewrite Hexe, !andb_false_r.
  split; reflexivity.
Qed.

(** X3: a sandboxed macOS process runs an executable whose file name is the
    bundle identifier of the system extension, [Tailscale] or
    [IPNExtension]. *)
Theorem mac_sandboxed_file_names calls exe :
  GOOS = "darwin" -> executable = Some exe ->
  fst (IsSandboxedMacOS (after calls)) = true ->
  filepath.unix_Base exe = sysExtName
  \/ filepath.unix_Base exe = "Tailscale"
  \/ filepath.unix_Base exe = "IPNExtension".
Proof.
  intros Hos Hexe.
  destruct (IsSandboxedMacOS_value _ (after_consistent calls)) as [-> _].
  unfold macSandboxedValue, macSysExtValue.
  rewrite Hexe, (filepath_Base_darwin Hos).
  rewrite andb_true_iff, !orb_true_iff, !HasSuffix_iff.
  intros [_ [[H|[dir ->]]|[dir ->]]].
  - left. apply String.eqb_eq. exact H.
  - right. left. apply unix_Base_app.
  - right. right. apply unix_Base_extension.
Qed.

(** X4: the app and the network extension of the App Store build, found by the
    end of their paths, are sandboxed but are not the system extension. *)
Theorem mac_app_store_paths calls exe :
  GOOS = "darwin" -> executable = Some exe ->
  (exists dir, exe = dir ++ appExecutable)
  \/ (exists dir, exe = dir ++ extensionExecutable) ->
  fst (IsSandboxedMacOS (after calls)) = true
  /\ fst (IsMacSysExt (after calls)) = false.
Proof.
  intros Hos Hexe Hend.
  destruct (IsMacSysExt_value _ (after_consistent calls)) as [-> _].
  destruct (IsSandboxedMacOS_value _ (after_consistent calls)) as [-> _].
  unfold macSandboxedValue, macSysExtValue.
  rewrite Hexe, (filepath_Base_darwin Hos).
  apply String.eqb_eq in Hos. rewrite Hos. cbn [andb].
  assert (Hname : String.eqb (filepath.unix_Base exe) sysExtName = false).
  { destruct Hend as [[dir ->]|[dir ->]];
      [rewrite unix_Base_app|rewrite unix_Base_extension]; reflexivity. }
  rewrite Hname. cbn [orb]. split; [|reflexivity].
  apply orb_true_iff.
  destruct Hend as [H|H]; [left|right]; apply HasSuffix_iff; exact H.
Qed.

(** *** The accessors taken together *)

(** X6: at most one of [IsMobile], [IsSandboxedMacOS] and [IsWindowsGUI] is
    true, and [IsMacSysExt] is true only where [IsSandboxedMacOS] could
    be: on macOS. *)
Theorem flavors_exclusive g :
  (fst (IsMobile g) = true ->
   fst (IsSandboxedMacOS g) = false /\ fst (IsMacSysExt g) = false
   /\ fst (IsWindowsGUI g) = false)
  /\ (fst (IsSandboxedMacOS g) = true \/ fst (IsMacSysExt g) = true ->
      fst (IsMobile g) = false /\ fst (IsWindowsGUI g) = false)
  /\ (fst (IsWindowsGUI g) = true ->
      fst (IsMobile g) = false
      /\ fst (IsSandboxedMacOS g) = false /\ fst (IsMacSysExt g) = false).
Proof.
  rewrite IsMobile_run, IsWindowsGUI_run. cbn [fst].
  destruct (String.eqb GOOS "darwin") eqn:Hd.
  - apply String.eqb_eq in Hd. rewrite Hd. cbn. intuition congruence.
  - destruct (not_darwin_inert g Hd) as [-> ->]. cbn [fst].
    destruct (String.eqb GOOS "windows") eqn:Hw.
    + apply String.eqb_eq in Hw. rewrite Hw.
      cbn [String.eqb Ascii.eqb Bool.eqb orb fst]. intuition congruence.
    + cbn [fst]. intuition congruence.
Qed.

(** X7: the name [OS] returns agrees with the flavor predicates. *)
Theorem OS_agrees_with_flavors g :
  (fst (IsMobile g) = true -> fst (OS g) = "android" \/ fst (OS g) = "iOS")
  /\ (fst (IsSandboxedMacOS g) = true \/ fst (IsMacSysExt g) = true ->
      fst (OS g) = "macOS")
  /\ (fst (IsWindowsGUI g) = true -> fst (OS g) = "windows").
Proof.
  rewrite IsMobile_run, IsWindowsGUI_run, OS_pure. cbn [fst]. unfold OS.
  destruct (String.eqb GOOS "darwin") eqn:Hd.
  - apply String.eqb_eq in Hd. rewrite Hd. cbn. intuition congruence.
  - destruct (not_darwin_inert g Hd) as [-> ->]. cbn [fst].
    split; [|split].
    + rewrite orb_true_iff, !String.eqb_eq. intros [H|H]; rewrite H; cbn; auto.
    + intros [H|H]; discriminate.
    + destruct (String.eqb GOOS "windows") eqn:Hw; [|discriminate].
      apply String.eqb_eq in Hw. rewrite Hw. reflexivity.
Qed.

(** X8: [OS] never returns ["darwin"] or ["ios"], whatever the platform. *)
Theorem OS_never_darwin g :
  fst (OS g) <> "darwin" /\ fst (OS g) <> "ios".
Proof.
  unfold OS.
  destruct (String.eqb GOOS "ios") eqn:Hi; [split; discriminate|].
  destruct (String.eqb GOOS "darwin") eqn:Hd; [split; discriminate|].
  cbn [fst]. apply String.eqb_neq in Hi, Hd. split; assumption.
Qed.

(** *** What the other accessors leave alone *)

(** X11: [IsUnstableBuild] and [GetMeta] never resolve the executable path and
    never touch the macOS flags; once either has returned, the unstable
    flag is computed. *)
Theorem unstable_detector_footprint calls :
  let g := after calls in
  forall g', g' = snd (IsUnstableBuild g) \/ g' = snd (GetMeta g) ->
  executableCalls g' = executableCalls g
  /\ macFlavorOnce g' = macFlavorOnce g
  /\ isMacSysExt g' = isMacSysExt g
  /\ isMacSandboxed g' = isMacSandboxed g
  /\ isUnstableOnce g' = true
  /\ isUnstableBuild g' = unstableValue.
Proof.
  intros g g' Hg'.
  assert (E : g' = snd (IsUnstableBuild g)).
  { destruct Hg' as [->| ->]; [reflexivity|]. rewrite GetMeta_run. reflexivity. }
  pose proof (after_consistent calls) as Hc. fold g in Hc.
  destruct (unstable_Do g Hc) as (Hc' & Hdone & _ & Hmo & Hms & Hmb & Hex).
  assert (E' : g' = snd (Once_Do isUnstableOnce set_isUnstableOnce initUnstable g)).
  { rewrite E. unfold IsUnstableBuild, bind, gets.
    destruct (Once_Do _ _ _ g); reflexivity. }
  rewrite E'. repeat split; auto. apply (unstable_done _ Hc' Hdone).
Qed.

(** X10: the Windows detector caches nothing: the package variables
    [winFlavorOnce] and [isWindowsGUI] keep their zero values however many
    calls are made. *)
Theorem windows_detector_keeps_no_state calls :
  winFlavorOnce (after calls) = false /\ isWindowsGUI (after calls) = false.
Proof.
  unfold after.
  assert (H : forall g, consistent g ->
              winFlavorOnce (run calls g) = winFlavorOnce g
              /\ isWindowsGUI (run calls g) = isWindowsGUI g).
  { induction calls as [|a calls IH]; intros g Hc; cbn [run]; [auto|].
    destruct (IH _ (call_consistent a g Hc)) as [-> ->].
    rewrite (call_state a g Hc).
    destruct a, (String.eqb GOOS "darwin"), (macFlavorOnce g),
      (String.eqb GOOS "windows"), (isUnstableOnce g); split; reflexivity. }
  apply (H init consistent_init).
Qed.

(** *** The unstable-branch detector on malformed and well-formed versions *)

(** X12: a short version with fewer than two ["."], the empty one included,
    makes [IsUnstableBuild] false. *)
Theorem IsUnstableBuild_few_separators calls :
  (count "." Short < 2)%nat -> fst (IsUnstableBuild (after calls)) = false.
Proof. apply (IsUnstableBuild_rule calls). Qed.

(** X13: a minor field that is not an optional sign followed by digits, or
    whose value does not fit an [int], makes [IsUnstableBuild] false. *)
Theorem IsUnstableBuild_bad_minor calls major minor rest :
  Short = major ++ "." ++ minor ++ "." ++ rest ->
  count "." major = 0%nat -> count "." minor = 0%nat ->
  integer_value IntSize minor = None ->
  fst (IsUnstableBuild (after calls)) = false.
Proof.
  intros HS Hj Hn Hv.
  destruct (IsUnstableBuild_rule calls) as [_ H].
  rewrite (H major minor rest HS Hj Hn), Hv. reflexivity.
Qed.

(** X14: with a minor field that is a decimal integer [n], [IsUnstableBuild] is
    true exactly when [n] is odd and positive. *)
Theorem IsUnstableBuild_parity calls major minor rest n :
  Short = major ++ "." ++ minor ++ "." ++ rest ->
  count "." major = 0%nat -> count "." minor = 0%nat ->
  integer_value IntSize minor = Some n ->
  (fst (IsUnstableBuild (after calls)) = true <-> Z.odd n = true /\ 0 < n).
Proof.
  intros HS Hj Hn Hv.
  destruct (IsUnstableBuild_rule calls) as [_ H].
  rewrite (H major minor rest HS Hj Hn), Hv.
  rewrite andb_true_iff, Z.ltb_lt. reflexivity.
Qed.

End Process.

(** ** The library models on concrete inputs *)

Example Cut_first_separator :
  strings.Cut "1.-3.0" "." = ("1", "-3.0", true)
  /\ strings.Cut "1" "." = ("1", "", false).
Proof. split; reflexivity. Qed.

Example Atoi_results :
  strconv.Atoi strconv.Int64 "-3" = (-3, strconv.nil)
  /\ strconv.Atoi strconv.Int64 "+07" = (7, strconv.nil)
  /\ strconv.Atoi strconv.Int64 "x" = (0, strconv.ErrSyntax)
  /\ strconv.Atoi strconv.Int64 "" = (0, strconv.ErrSyntax)
  /\ strconv.Atoi strconv.Int64 "9223372036854775808"
     = (9223372036854775807, strconv.ErrRange)
  /\ strconv.Atoi strconv.Int64 "-9223372036854775808"
     = (-9223372036854775808, strconv.nil)
  /\ strconv.Atoi strconv.Int32 "2147483648" = (2147483647, strconv.ErrRange).
Proof. repeat split; vm_compute; reflexivity. Qed.

Example Base_results :
  filepath.unix_Base "/a/b/c//" = "c"
  /\ filepath.unix_Base "///" = "/"
  /\ filepath.unix_Base "" = "."
  /\ filepath.unix_Base "tailscaled" = "tailscaled".
Proof. repeat split; reflexivity. Qed.

Example EqualFold_results :
  let fold := strings.EqualFold (fun _ _ => false) in
  fold "Tailscale-IPN.EXE" "tailscale-ipn.exe" = true
  /\ fold "tailscale-ipn" "tailscale-ipn.exe" = false
  /\ fold "." "tailscale-ipn" = false.
Proof. repeat split; reflexivity. Qed.

(** ** The claim about the parity of the minor version *)

(** C1: with the short version ["1.-3.0"] the minor field is ["-3"], which
    [Atoi] parses to the odd integer [-3]; yet [IsUnstableBuild] returns
    false at any point of the process's life, because [-3 % 2] is [-1]. *)
Theorem IsUnstableBuild_negative_odd_minor goos w exe calls :
  let proc := process goos w exe "1.-3.0" in
  minorField "1.-3.0" = Some "-3"
  /\ strconv.Atoi w "-3" = (-3, strconv.nil)
  /\ Z.odd (-3) = true
  /\ Z.rem (-3) 2 = -1
  /\ fst (IsUnstableBuild proc (after proc calls)) = false.
Proof.
  intros proc. repeat split; try (destruct w; reflexivity).
  destruct (IsUnstableBuild_value proc _ (after_consistent proc calls)) as [-> _].
  destruct w; reflexivity.
Qed.

(** The four short versions of the specification. *)
Lemma IsUnstableBuild_examples goos w exe calls :
  let unstable short :=
    let proc := process goos w exe short in
    fst (IsUnstableBuild proc (after proc calls)) in
  unstable "1.2.0" = false /\ unstable "1.3.0" = true
  /\ unstable "1.x.0" = false /\ unstable "1" = false.
Proof.
  cbv zeta. repeat split;
    match goal with
    | |- fst (IsUnstableBuild ?p _) = _ =>
        destruct (IsUnstableBuild_value p _ (after_consistent p calls)) as [-> _]
    end; destruct w; reflexivity.
Qed.

(** ** Instances of the conditional statements *)

Lemma IsMobile_iff_witness :
  fst (IsMobile (process "android" strconv.Int64 None "1.2.0") init) = true
  /\ fst (IsMobile (process "darwin" strconv.Int64 None "1.2.0") init) = false
  /\ fst (IsMobile (process "windows" strconv.Int64 None "1.2.0") init) = false.
Proof.
  split; [|split].
  - destruct (IsMobile_iff (process "android" strconv.Int64 None "1.2.0") init)
      as ([_ H] & _ & _).
    apply H. left. reflexivity.
  - destruct (IsMobile_iff (process "darwin" strconv.Int64 None "1.2.0") init)
      as (_ & H & _).
    apply H. reflexivity.
  - destruct (IsMobile_iff (process "windows" strconv.Int64 None "1.2.0") init)
      as (_ & _ & H).
    apply H. reflexivity.
Defined.

Lemma OS_display_name_witness :
  fst (OS (process "ios" strconv.Int64 None "1.2.0") init) = "iOS"
  /\ fst (OS (process "darwin" strconv.Int64 None "1.2.0") init) = "macOS"
  /\ fst (OS (process "linux" strconv.Int64 None "1.2.0") init) = "linux".
Proof.
  split; [|split].
  - destruct (OS_display_name (process "ios" strconv.Int64 None "1.2.0") init)
      as (H & _ & _).
    apply H. reflexivity.
  - destruct (OS_display_name (process "darwin" strconv.Int64 None "1.2.0") init)
      as (_ & H & _).
    apply H. reflexivity.
  - destruct (OS_display_name (process "linux" strconv.Int64 None "1.2.0") init)
      as (_ & _ & H).
    apply H; discriminate.
Defined.

Lemma mac_flavor_rules_witness :
  let proc := process "darwin" strconv.Int64 (Some sysExtPath) "1.2.0" in
  fst (IsMacSysExt proc (after proc [CallIsSandboxedMacOS])) = true
  /\ fst (IsSandboxedMacOS proc (after proc [CallIsSandboxedMacOS])) = true.
Proof.
  intros proc.
  destruct (mac_flavor_rules proc [CallIsSandboxedMacOS] sysExtPath
              eq_refl eq_refl) as (Hext & _ & Himp).
  assert (E : fst (IsMacSysExt proc (after proc [CallIsSandboxedMacOS])) = true)
    by (apply Hext; reflexivity).
  split; [exact E | exact (Himp E)].
Defined.

Lemma non_mac_flavor_false_witness :
  let proc := process "linux" strconv.Int64 (Some sysExtPath) "1.2.0" in
  IsSandboxedMacOS proc init = (false, init)
  /\ IsMacSysExt proc init = (false, init).
Proof.
  intros proc. apply (non_mac_flavor_false proc init). discriminate.
Defined.

Lemma IsWindowsGUI_rules_witness :
  IsWindowsGUI (process "linux" strconv.Int64 (Some guiPath) "1.2.0") init
  = (false, init)
  /\ fst (IsWindowsGUI (process "windows" strconv.Int64 (Some guiPath) "1.2.0")
            init) = true
  /\ fst (IsWindowsGUI (process "windows" strconv.Int64 None "1.2.0") init)
     = false.
Proof.
  split; [|split].
  - destruct (IsWindowsGUI_rules
                (process "linux" strconv.Int64 (Some guiPath) "1.2.0") init)
      as (H & _ & _).
    apply H. discriminate.
  - destruct (IsWindowsGUI_rules
                (process "windows" strconv.Int64 (Some guiPath) "1.2.0") init)
      as (_ & H & _).
    destruct (H eq_refl) as [[_ Hgui] _]. apply Hgui. left. reflexivity.
  - destruct (IsWindowsGUI_rules
                (process "windows" strconv.Int64 None "1.2.0") init)
      as (_ & _ & H).
    apply (H eq_refl eq_refl).
Defined.

(** C3 as first stated fails where resolution fails on Windows: the file
    name that is compared is not empty there, it is ["."]. *)
Lemma IsWindowsGUI_failed_resolution_name :
  let proc := process "windows" strconv.Int64 None "1.2.0" in
  let name := filepath_Base proc (fst (fst (os_Executable proc init))) in
  name = "."
  /\ ~ (name = "" /\ fst (IsWindowsGUI proc init) = false).
Proof.
  cbv zeta. split; [reflexivity|]. intros [H _]. discriminate H.
Qed.

Lemma GetMeta_IsDev_witness :
  Meta.IsDev (fst (GetMeta (process "linux" strconv.Int64 None "1.2.0-dev") init))
  = true
  /\ Meta.IsDev (fst (GetMeta (process "linux" strconv.Int64 None "1.2.0") init))
     = false
  /\ Meta.IsDev
       (fst (GetMeta (process "linux" strconv.Int64 None "1.3.1-development")
               init)) = true.
Proof.
  split; [|split].
  - destruct (GetMeta_IsDev
                (process "linux" strconv.Int64 None "1.2.0-dev") init)
      as (_ & H & _).
    apply H. reflexivity.
  - destruct (GetMeta_IsDev (process "linux" strconv.Int64 None "1.2.0") init)
      as (_ & _ & H).
    apply H. reflexivity.
  - destruct (GetMeta_IsDev
                (process "linux" strconv.Int64 None "1.3.1-development") init)
      as ([_ H] & _ & _).
    apply H. exists "1.3.1", "elopment". reflexivity.
Defined.

(** ** Further properties: two processes, and instances *)

(** X15: [IsUnstableBuild] looks at the minor field alone: two builds whose
    short versions have the same text between the first two ["."] agree,
    whatever stands before and after it, on whatever platform. *)
Theorem IsUnstableBuild_only_minor p1 p2 calls1 calls2
    major1 major2 minor rest1 rest2 :
  strconv_IntSize p1 = strconv_IntSize p2 ->
  stamp_Short p1 = major1 ++ "." ++ minor ++ "." ++ rest1 ->
  stamp_Short p2 = major2 ++ "." ++ minor ++ "." ++ rest2 ->
  count "." major1 = 0%nat -> count "." major2 = 0%nat ->
  count "." minor = 0%nat ->
  fst (IsUnstableBuild p1 (after p1 calls1))
  = fst (IsUnstableBuild p2 (after p2 calls2)).
Proof.
  intros Hw H1 H2 Hj1 Hj2 Hn.
  destruct (IsUnstableBuild_rule p1 calls1) as [_ R1].
  destruct (IsUnstableBuild_rule p2 calls2) as [_ R2].
  rewrite (R1 _ _ _ H1 Hj1 Hn), (R2 _ _ _ H2 Hj2 Hn), Hw. reflexivity.
Qed.

Lemma IsUnstableBuild_only_minor_witness :
  fst (IsUnstableBuild (process "linux" strconv.Int64 None "1.3.0") init)
  = fst (IsUnstableBuild
           (process "darwin" strconv.Int64 None "v2.3.9-dev20240101")
           (after (process "darwin" strconv.Int64 None "v2.3.9-dev20240101")
              [CallGetMeta])).
Proof.
  apply (IsUnstableBuild_only_minor
           (process "linux" strconv.Int64 None "1.3.0")
           (process "darwin" strconv.Int64 None "v2.3.9-dev20240101")
           [] [CallGetMeta] "1" "v2" "3" "0" "9-dev20240101");
    reflexivity.
Defined.

Lemma mac_flavor_failed_resolution_witness :
  let proc := process "darwin" strconv.Int64 None "1.2.0" in
  fst (IsSandboxedMacOS proc (after proc [CallIsMacSysExt])) = false
  /\ fst (IsMacSysExt proc (after proc [CallIsMacSysExt])) = false.
Proof.
  intros proc.
  apply (mac_flavor_failed_resolution proc [CallIsMacSysExt]); reflexivity.
Defined.

Lemma mac_sandboxed_file_names_witness :
  let proc := process "darwin" strconv.Int64 (Some appPath) "1.2.0" in
  filepath.unix_Base appPath = sysExtName
  \/ filepath.unix_Base appPath = "Tailscale"
  \/ filepath.unix_Base appPath = "IPNExtension".
Proof.
  intros proc.
  apply (mac_sandboxed_file_names proc [] appPath); reflexivity.
Defined.

Lemma mac_app_store_paths_witness :
  let proc := process "darwin" strconv.Int64 (Some appPath) "1.2.0" in
  fst (IsSandboxedMacOS proc (after proc [])) = true
  /\ fst (IsMacSysExt proc (after proc [])) = false.
Proof.
  intros proc.
  apply (mac_app_store_paths proc [] appPath); [reflexivity|reflexivity|].
  left. exists "/Applications/Tailscale.app". reflexivity.
Defined.

Lemma mac_sysext_path_witness :
  let proc := process "darwin" strconv.Int64 (Some sysExtPath) "1.2.0" in
  fst (IsMacSysExt proc (after proc [CallIsUnstableBuild])) = true
  /\ fst (IsSandboxedMacOS proc (after proc [CallIsUnstableBuild])) = true.
Proof.
  intros proc.
  apply (mac_sysext_path proc [CallIsUnstableBuild]
           "/Library/SystemExtensions/0A1B/io.tailscale.ipn.macsys.network-extension.systemextension/Contents/MacOS");
    reflexivity.
Defined.

Lemma flavors_exclusive_witness :
  fst (IsWindowsGUI (process "android" strconv.Int64 None "1.2.0") init) = false
  /\ fst (IsMobile (process "darwin" strconv.Int64 (Some appPath) "1.2.0") init)
     = false
  /\ fst (IsSandboxedMacOS
            (process "windows" strconv.Int64 (Some guiPath) "1.2.0") init)
     = false.
Proof.
  split; [|split].
  - destruct (flavors_exclusive
                (process "android" strconv.Int64 None "1.2.0") init)
      as (H & _ & _).
    apply H. reflexivity.
  - destruct (flavors_exclusive
                (process "darwin" strconv.Int64 (Some appPath) "1.2.0") init)
      as (_ & H & _).
    apply H. left. reflexivity.
  - destruct (flavors_exclusive
                (process "windows" strconv.Int64 (Some guiPath) "1.2.0") init)
      as (_ & _ & H).
    apply H. reflexivity.
Defined.

Lemma OS_agrees_with_flavors_witness :
  (fst (OS (process "ios" strconv.Int64 None "1.2.0") init) = "android"
   \/ fst (OS (process "ios" strconv.Int64 None "1.2.0") init) = "iOS")
  /\ fst (OS (process "darwin" strconv.Int64 (Some appPath) "1.2.0") init)
     = "macOS"
  /\ fst (OS (process "windows" strconv.Int64 (Some guiPath) "1.2.0") init)
     = "windows".
Proof.
  split; [|split].
  - destruct (OS_agrees_with_flavors
                (process "ios" strconv.Int64 None "1.2.0") init)
      as (H & _ & _).
    apply H. reflexivity.
  - destruct (OS_agrees_with_flavors
                (process "darwin" strconv.Int64 (Some appPath) "1.2.0") init)
      as (_ & H & _).
    apply H. left. reflexivity.
  - destruct (OS_agrees_with_flavors
                (process "windows" strconv.Int64 (Some guiPath) "1.2.0") init)
      as (_ & _ & H).
    apply H. reflexivity.
Defined.

Lemma OS_never_darwin_witness :
  fst (OS (process "darwin" strconv.Int64 None "1.2.0") init) <> "darwin"
  /\ fst (OS (process "ios" strconv.Int64 None "1.2.0") init) <> "ios".
Proof.
  split.
  - apply (OS_never_darwin (process "darwin" strconv.Int64 None "1.2.0") init).
  - apply (OS_never_darwin (process "ios" strconv.Int64 None "1.2.0") init).
Defined.

Lemma IsWindowsGUI_ascii_witness :
  fst (IsWindowsGUI (process "windows" strconv.Int64 (Some guiPath) "1.2.0")
         init) = true.
Proof.
  apply (IsWindowsGUI_ascii
           (process "windows" strconv.Int64 (Some guiPath) "1.2.0") init
           guiPath eq_refl eq_refl eq_refl).
  left. reflexivity.
Defined.

Lemma unstable_detector_footprint_witness :
  let proc := process "darwin" strconv.Int64 (Some appPath) "1.3.0" in
  let g := after proc [CallIsSandboxedMacOS] in
  executableCalls (snd (GetMeta proc g)) = 1%nat
  /\ isMacSandboxed (snd (GetMeta proc g)) = true
  /\ isUnstableBuild (snd (GetMeta proc g)) = true.
Proof.
  intros proc g.
  destruct (unstable_detector_footprint proc [CallIsSandboxedMacOS]
              (snd (GetMeta proc g)) (or_intror eq_refl))
    as (Hex & _ & _ & Hb & _ & Hu).
  rewrite Hex, Hb, Hu. repeat split; reflexivity.
Defined.

Lemma IsUnstableBuild_few_separators_witness :
  fst (IsUnstableBuild (process "linux" strconv.Int64 None "")
         (after (process "linux" strconv.Int64 None "") [])) = false
  /\ fst (IsUnstableBuild (process "linux" strconv.Int64 None "1.3")
            (after (process "linux" strconv.Int64 None "1.3") [])) = false.
Proof.
  split.
  - apply (IsUnstableBuild_few_separators
             (process "linux" strconv.Int64 None "") []).
    cbn. lia.
  - apply (IsUnstableBuild_few_separators
             (process "linux" strconv.Int64 None "1.3") []).
    cbn. lia.
Defined.

Lemma IsUnstableBuild_bad_minor_witness :
  fst (IsUnstableBuild (process "linux" strconv.Int64 None "1.3a.0")
         (after (process "linux" strconv.Int64 None "1.3a.0") [])) = false
  /\ fst (IsUnstableBuild (process "linux" strconv.Int32 None "1.2147483649.0")
            (after (process "linux" strconv.Int32 None "1.2147483649.0") []))
     = false.
Proof.
  split.
  - apply (IsUnstableBuild_bad_minor
             (process "linux" strconv.Int64 None "1.3a.0") [] "1" "3a" "0");
      reflexivity.
  - apply (IsUnstableBuild_bad_minor
             (process "linux" strconv.Int32 None "1.2147483649.0") []
             "1" "2147483649" "0");
      reflexivity.
Defined.

Lemma IsUnstableBuild_parity_witness :
  fst (IsUnstableBuild (process "linux" strconv.Int64 None "1.57.2")
         (after (process "linux" strconv.Int64 None "1.57.2") [])) = true.
Proof.
  apply (IsUnstableBuild_parity
           (process "linux" strconv.Int64 None "1.57.2") [] "1" "57" "2" 57);
    try reflexivity.
  split; [reflexivity|lia].
Defined.
